(** * Customer-onboarding upload service: model and verified properties

    A shallow embedding of the upload pipeline of the onboarding agent

      - [app/utils/file_utils.py]   (saving an uploaded file),
      - [app/services/validation.py] (the record schema),
      - [app/api/upload.py]          (the upload endpoint and the PDF / DOCX
                                      extractors),
      - [app/auth.py], [main.py]     (token issuance and verification),

    followed by the properties of the specification, each stated over these
    definitions.

    Conventions.  A Python [str] is a [string]; a character is a code point
    below 256 and the character classes are Python's on that range.  A
    [dict] is a [gmap] with string keys.  Code that raises returns in
    [result]; code that touches the disk, the clock, the log or the network
    passes a [world] along. *)

From Stdlib Require Import ZArith Lia List Bool Ascii String DecimalString.
From stdpp Require Import base option list gmap strings.

Local Open Scope string_scope.
Local Open Scope Z_scope.

(** ** Python built-ins on [str] *)

Module Py.

Definition code (c : ascii) : N := N_of_ascii c.

Definition in_range (lo hi : N) (c : ascii) : bool :=
  ((lo <=? code c) && (code c <=? hi))%N.

Definition is_code (n : N) (c : ascii) : bool := (code c =? n)%N.

(** [str.isspace] on one character: what [str.strip()] removes and what
    [str.split()] splits on. *)
Definition isspace (c : ascii) : bool :=
  in_range 9 13 c || in_range 28 32 c || is_code 133 c || is_code 160 c.

(** Decimal digits: the class [\d] of [re], and what [int()] reads. *)
Definition isdecimal (c : ascii) : bool := in_range 48 57 c.

(** [str.isdigit] on one character: the decimal digits and the superscripts
    two, three and one. *)
Definition isdigit_char (c : ascii) : bool :=
  isdecimal c || is_code 178 c || is_code 179 c || is_code 185 c.

(** [str.isalpha] on one character: the letters. *)
Definition isalpha_char (c : ascii) : bool :=
  in_range 65 90 c || in_range 97 122 c
  || is_code 170 c || is_code 181 c || is_code 186 c
  || in_range 192 214 c || in_range 216 246 c || in_range 248 255 c.

Definition lower_char (c : ascii) : ascii :=
  if in_range 65 90 c || in_range 192 214 c || in_range 216 222 c
  then ascii_of_N (code c + 32) else c.

Definition chars (s : string) : list ascii := list_ascii_of_string s.
Definition str (l : list ascii) : string := string_of_list_ascii l.

Definition len (s : string) : nat := List.length (chars s).

(** [s.lower()] *)
Definition lower (s : string) : string := str (map lower_char (chars s)).

Fixpoint lstrip_chars (l : list ascii) : list ascii :=
  match l with
  | c :: l' => if isspace c then lstrip_chars l' else l
  | [] => []
  end.

(** [s.strip()] *)
Definition strip (s : string) : string :=
  str (rev (lstrip_chars (rev (lstrip_chars (chars s))))).

Definition flush (tok : list ascii) (rest : list string) : list string :=
  match tok with
  | [] => rest
  | _ => str (rev tok) :: rest
  end.

Fixpoint split_go (tok : list ascii) (l : list ascii) : list string :=
  match l with
  | [] => flush tok []
  | c :: l' =>
      if isspace c then flush tok (split_go [] l') else split_go (c :: tok) l'
  end.

(** [s.split()]: the maximal runs of non-whitespace characters. *)
Definition split (s : string) : list string := split_go [] (chars s).

Fixpoint split_on_go (sep : ascii) (tok : list ascii) (l : list ascii)
  : list string :=
  match l with
  | [] => [str (rev tok)]
  | c :: l' =>
      if Ascii.eqb c sep then str (rev tok) :: split_on_go sep [] l'
      else split_on_go sep (c :: tok) l'
  end.

(** [s.split(sep)] for a one-character separator: empty pieces are kept. *)
Definition split_on (sep : ascii) (s : string) : list string :=
  split_on_go sep [] (chars s).

(** [s.startswith(p)] *)
Definition startswith (p s : string) : bool := String.prefix p s.

(** [c in s] for a one-character [c] *)
Definition contains (c : ascii) (s : string) : bool :=
  existsb (Ascii.eqb c) (chars s).

(** [s.replace(c, "")] for a one-character [c] *)
Definition remove_char (c : ascii) (s : string) : string :=
  str (List.filter (fun x => negb (Ascii.eqb x c)) (chars s)).

(** [s.isalpha()]: at least one character, all of them letters. *)
Definition isalpha (s : string) : bool :=
  match chars s with
  | [] => false
  | l => forallb isalpha_char l
  end.

(** [s.isdigit()] *)
Definition isdigit (s : string) : bool :=
  match chars s with
  | [] => false
  | l => forallb isdigit_char l
  end.

(** [sep.join(parts)] *)
Fixpoint join (sep : string) (parts : list string) : string :=
  match parts with
  | [] => ""
  | [p] => p
  | p :: ps => p ++ sep ++ join sep ps
  end.

Definition digit_value (c : ascii) : Z := Z.of_N (code c) - 48.

(** The value of a run of decimal digits, most significant first. *)
Definition digits_value (l : list ascii) : Z :=
  fold_left (fun acc c => 10 * acc + digit_value c) l 0.

Definition all_decimal (l : list ascii) : bool :=
  match l with
  | [] => false
  | _ => forallb isdecimal l
  end.

(** An optional sign and a run of decimal digits, surrounding whitespace
    dropped: the integer literals read by [int(s)].  (Digit grouping with
    underscores is not modelled.) *)
Definition signed_decimal (s : string) : option Z :=
  match chars (strip s) with
  | "+"%char :: l => if all_decimal l then Some (digits_value l) else None
  | "-"%char :: l => if all_decimal l then Some (- digits_value l) else None
  | l => if all_decimal l then Some (digits_value l) else None
  end.

(** [str(n)] for an [int] *)
Definition str_of_int (n : Z) : string := NilZero.string_of_int (Z.to_int n).

(** [s.rfind(c)]: the last index of [c], if any. *)
Fixpoint rfind_go (c : ascii) (i : nat) (last : option nat) (l : list ascii)
  : option nat :=
  match l with
  | [] => last
  | x :: l' => rfind_go c (S i) (if Ascii.eqb x c then Some i else last) l'
  end.

Definition rfind (c : ascii) (s : string) : option nat :=
  rfind_go c 0%nat None (chars s).

(** [s[i:]] and [s[:i]] *)
Definition drop_str (i : nat) (s : string) : string := str (skipn i (chars s)).
Definition take_str (i : nat) (s : string) : string := str (firstn i (chars s)).

End Py.

(** ** Exceptions *)

Inductive field_error := FieldError (loc : string) (type : string).

Definition loc_of (e : field_error) : string :=
  match e with FieldError l _ => l end.

Inductive exn :=
| HTTPException (status_code : Z) (detail : string)
| NameError (name : string)
| IndexError (msg : string)
| ValueError (msg : string)
| ValidationValueError (errors : list field_error)
| JWTError (msg : string)
| LibraryError (msg : string).

(** [str(e)].  Starlette prints an [HTTPException] as ["<status>: <detail>"];
    the text of the validation report is its JSON, of which the program reads
    only the first [loc], so the text is kept abstract as the list of
    locations. *)
Definition str_exn (e : exn) : string :=
  match e with
  | HTTPException s d => Py.str_of_int s ++ ": " ++ d
  | NameError n => "name '" ++ n ++ "' is not defined"
  | IndexError m => m
  | ValueError m => m
  | ValidationValueError errs => Py.join "," (map loc_of errs)
  | JWTError m => m
  | LibraryError m => m
  end.

Definition result (A : Type) : Type := A + exn.

Definition ret {A} (a : A) : result A := inl a.
Definition raise {A} (e : exn) : result A := inr e.

Definition bind {A B} (r : result A) (k : A -> result B) : result B :=
  match r with
  | inl a => k a
  | inr e => inr e
  end.

(** [try: body except Exception as e: handler(e)] *)
Definition try_except {A} (body : result A) (handler : exn -> result A)
  : result A :=
  match body with
  | inl a => inl a
  | inr e => handler e
  end.

Definition is_http (status : Z) (e : exn) : Prop :=
  exists detail, e = HTTPException status detail.

(** ** [app/utils/file_utils.py] *)

(** The upload directory holds regular files only (the program creates
    nothing else there), so the disk is a map from path to contents. *)
Abbreviation files := (gmap string (list Byte.byte)).

Record UploadFile := {
  filename : string;
  content_type : option string;
  body : list Byte.byte
}.

Module FileUtils.

Definition UPLOAD_DIR : string := "uploads".

Definition ALLOWED_SUFFIXES : list string :=
  [".csv"; ".xlsx"; ".pdf"; ".docx"; ".json"].

(** [os.path.basename] (POSIX): what follows the last slash. *)
Definition basename (p : string) : string :=
  match Py.rfind "/" p with
  | Some i => Py.drop_str (S i) p
  | None => p
  end.

(** [str(UPLOAD_DIR / filename)] for a slash-free [filename]; [pathlib]
    drops an empty or ["."] component. *)
Definition in_upload_dir (filename : string) : string :=
  if String.eqb filename "" || String.eqb filename "." then UPLOAD_DIR
  else UPLOAD_DIR ++ "/" ++ filename.

(** [path.name]: the last component. *)
Definition path_name (path : string) : string := basename path.

(** Where [pathlib] cuts a name into stem and suffix: at the last dot, unless
    that dot is the first or the last character. *)
Definition suffix_index (name : string) : option nat :=
  match Py.rfind "." name with
  | Some i =>
      if (0 <? i)%nat && (i <? Py.len name - 1)%nat then Some i else None
  | None => None
  end.

(** [path.suffix] *)
Definition suffix (path : string) : string :=
  let name := path_name path in
  match suffix_index name with
  | Some i => Py.drop_str i name
  | None => ""
  end.

(** [path.stem] *)
Definition stem (path : string) : string :=
  let name := path_name path in
  match suffix_index name with
  | Some i => Py.take_str i name
  | None => name
  end.

Definition is_allowed (sfx : string) : bool :=
  existsb (String.eqb sfx) ALLOWED_SUFFIXES.

(** [path.exists()] *)
Definition path_exists (fs : files) (path : string) : bool :=
  bool_decide (is_Some (fs !! path)).

(** [int(time.time())], the clock counting microseconds since the epoch. *)
Definition unix_time (clock : Z) : Z := clock ÷ 1000000.

(** The name given on a collision: [f"{stem}_{timestamp}{suffix}"]. *)
Definition stamped_name (path : string) (timestamp : Z) : string :=
  stem path ++ "_" ++ Py.str_of_int timestamp ++ suffix path.

(** [save_and_validate_file]: returns the path written and the disk after
    the write.  The check of the suffix comes first; nothing is written when
    it raises.  (Creating the upload directory when it is missing leaves no
    trace in a disk of files.) *)
Definition save_and_validate_file (fs : files) (clock : Z) (file : UploadFile)
  : result (string * files) :=
  let filename := basename (filename file) in
  let file_path := in_upload_dir filename in
  if negb (is_allowed (suffix file_path)) then
    raise (HTTPException 400 "Unsupported file type")
  else
    let file_path :=
      if path_exists fs file_path then
        let timestamp := unix_time clock in
        in_upload_dir (stamped_name file_path timestamp)
      else file_path in
    ret (file_path, <[file_path := body file]> fs).

End FileUtils.

(** ** Regular expressions

    The fragment of the regular-expression syntax that the schema uses, with
    matching by derivatives. *)

Module Regex.

Inductive re :=
| Nothing
| Eps
| Class (p : ascii -> bool)
| Seq (r1 r2 : re)
| Alt (r1 r2 : re)
| Star (r : re).

Definition Plus (r : re) : re := Seq r (Star r).
Definition Chr (c : ascii) : re := Class (Ascii.eqb c).
Definition NotChr (c : ascii) : re := Class (fun x => negb (Ascii.eqb x c)).
Definition AnyChr : re := Class (fun _ => true).

Fixpoint nullable (r : re) : bool :=
  match r with
  | Nothing => false
  | Eps => true
  | Class _ => false
  | Seq r1 r2 => nullable r1 && nullable r2
  | Alt r1 r2 => nullable r1 || nullable r2
  | Star _ => true
  end.

Fixpoint deriv (c : ascii) (r : re) : re :=
  match r with
  | Nothing => Nothing
  | Eps => Nothing
  | Class p => if p c then Eps else Nothing
  | Seq r1 r2 =>
      if nullable r1 then Alt (Seq (deriv c r1) r2) (deriv c r2)
      else Seq (deriv c r1) r2
  | Alt r1 r2 => Alt (deriv c r1) (deriv c r2)
  | Star r1 => Seq (deriv c r1) (Star r1)
  end.

(** The whole of [l] is a word of [r]. *)
Fixpoint fullmatch (r : re) (l : list ascii) : bool :=
  match l with
  | [] => nullable r
  | c :: l' => fullmatch (deriv c r) l'
  end.

(** Some substring of [s] is a word of [r]: the unanchored test that the
    schema library applies to a [pattern] constraint. *)
Definition is_match (r : re) (s : string) : bool :=
  fullmatch (Seq (Star AnyChr) (Seq r (Star AnyChr))) (Py.chars s).

(** The words of a regular expression. *)
Inductive Matches : re -> list ascii -> Prop :=
| MEps : Matches Eps []
| MClass p c : p c = true -> Matches (Class p) [c]
| MSeq r1 r2 l1 l2 :
    Matches r1 l1 -> Matches r2 l2 -> Matches (Seq r1 r2) (l1 ++ l2)
| MAltL r1 r2 l : Matches r1 l -> Matches (Alt r1 r2) l
| MAltR r1 r2 l : Matches r2 l -> Matches (Alt r1 r2) l
| MStarNil r : Matches (Star r) []
| MStarCons r l1 l2 :
    Matches r l1 -> Matches (Star r) l2 -> Matches (Star r) (l1 ++ l2).

End Regex.

(** ** [app/services/validation.py]

    The schema is read as version 2 of the schema library reads it, the
    version the keyword [pattern] belongs to: fields are checked in the
    default (lax) mode, a [str] field takes strings only, a [pattern]
    constraint is an unanchored test, and the report lists the failing
    fields in the order of their declaration. *)

(** A Python [float]: not-a-number, an infinity, or [m * 2^e]. *)
Inductive pyfloat :=
| FNaN
| FInf (negative : bool)
| FFinite (m : Z) (e : Z).

(** The values a parsed file puts in a record. *)
Inductive pyval :=
| VNone
| VBool (b : bool)
| VInt (z : Z)
| VFloat (f : pyfloat)
| VStr (s : string).

Abbreviation pydict := (gmap string pyval).

Module Validation.

Record OnboardingDataModel := {
  name : string;
  email : string;
  age : Z
}.

(** [pattern=r"[^@]+@[^@]+\.[^@]+"] *)
Definition EMAIL_PATTERN : Regex.re :=
  Regex.Seq (Regex.Plus (Regex.NotChr "@"))
    (Regex.Seq (Regex.Chr "@")
       (Regex.Seq (Regex.Plus (Regex.NotChr "@"))
          (Regex.Seq (Regex.Chr ".") (Regex.Plus (Regex.NotChr "@"))))).

(** The validator [name_must_be_alpha]. *)
Definition name_must_be_alpha (v : string) : string + field_error :=
  if negb (Py.isalpha (Py.remove_char " " v)) then
    inr (FieldError "name" "value_error")
  else inl v.

(** [name: str = Field(..., min_length=1)], then the validator. *)
Definition validate_name (v : option pyval) : string + field_error :=
  match v with
  | None => inr (FieldError "name" "missing")
  | Some (VStr s) =>
      if (Py.len s <? 1)%nat then inr (FieldError "name" "string_too_short")
      else name_must_be_alpha s
  | Some _ => inr (FieldError "name" "string_type")
  end.

(** [email: str = Field(..., pattern=...)] *)
Definition validate_email (v : option pyval) : string + field_error :=
  match v with
  | None => inr (FieldError "email" "missing")
  | Some (VStr s) =>
      if Regex.is_match EMAIL_PATTERN s then inl s
      else inr (FieldError "email" "string_pattern_mismatch")
  | Some _ => inr (FieldError "email" "string_type")
  end.

(** In its default (lax) mode the schema library reads an [int] from a
    string that holds a number: surrounding whitespace is dropped, then an
    optional sign and a run of decimal digits are read.  (Other spellings
    the library may accept, and limits it may put on the size of the
    literal, are outside the model.) *)
Definition str_as_int (s : string) : option Z := Py.signed_decimal s.

(** A finite float with no fractional part, as an integer. *)
Definition float_as_int (f : pyfloat) : option Z :=
  match f with
  | FFinite m e =>
      if 0 <=? e then Some (m * 2 ^ e)
      else if m mod 2 ^ (- e) =? 0 then Some (m / 2 ^ (- e)) else None
  | _ => None
  end.

(** [age: int = Field(..., gt=0)], lax mode. *)
Definition validate_age (v : option pyval) : Z + field_error :=
  let gt0 (z : Z) : Z + field_error :=
    if 0 <? z then inl z else inr (FieldError "age" "greater_than") in
  match v with
  | None => inr (FieldError "age" "missing")
  | Some (VInt z) => gt0 z
  | Some (VBool b) => gt0 (if b then 1 else 0)
  | Some (VFloat f) =>
      match float_as_int f with
      | Some z => gt0 z
      | None => inr (FieldError "age" "int_from_float")
      end
  | Some (VStr s) =>
      match str_as_int s with
      | Some z => gt0 z
      | None => inr (FieldError "age" "int_parsing")
      end
  | Some VNone => inr (FieldError "age" "int_type")
  end.

Definition errors_of {A} (r : A + field_error) : list field_error :=
  match r with
  | inl _ => []
  | inr e => [e]
  end.

(** The constructor call, the entries of [data] passed as keyword
    arguments: every field is checked, keys that are not fields are ignored, and the errors are reported in the order of the
    fields. *)
Definition init (data : pydict) : OnboardingDataModel + list field_error :=
  let n := validate_name (data !! "name") in
  let e := validate_email (data !! "email") in
  let a := validate_age (data !! "age") in
  match n, e, a with
  | inl n', inl e', inl a' => inl {| name := n'; email := e'; age := a' |}
  | _, _, _ => inr (errors_of n ++ errors_of e ++ errors_of a)%list
  end.

(** [model.dict()] *)
Definition dict (m : OnboardingDataModel) : pydict :=
  <["name" := VStr (name m)]>
    (<["email" := VStr (email m)]> (<["age" := VInt (age m)]> ∅)).

Definition validate_onboarding_data (data : pydict) : result pydict :=
  match init data with
  | inl m => ret (dict m)
  | inr errs => raise (ValidationValueError errs)
  end.

End Validation.

(** ** [app/utils/api_client.py], [app/utils/logger.py] and the state of
       the service *)

(** What the libraries and the network answer: the parsers read the bytes of
    the saved file, the network answers a POST with a status and a body, or
    the exchange raises. *)
Record libs := {
  pd_read_json : list Byte.byte -> result (list pydict);
  pd_read_csv : list Byte.byte -> result (list pydict);
  pd_read_excel : list Byte.byte -> result (list pydict);
  pdfplumber_pages : list Byte.byte -> result (list string);
  docx_tables : list Byte.byte -> result (list (list (list string)));
  http_post : list pydict -> result (Z * string)
}.

(** The state a request runs in: the upload directory, the clock in
    microseconds since the epoch, what has been logged, and the payloads
    posted to the downstream API. *)
Record world := {
  w_fs : files;
  w_clock : Z;
  w_log : list exn;
  w_posts : list (list pydict)
}.

Definition M (A : Type) : Type := world -> result A * world.

Definition mret {A} (a : A) : M A := fun w => (inl a, w).
Definition mraise {A} (e : exn) : M A := fun w => (inr e, w).
Definition lift {A} (r : result A) : M A := fun w => (r, w).

Definition mbind {A B} (c : M A) (k : A -> M B) : M B :=
  fun w =>
    match c w with
    | (inl a, w') => k a w'
    | (inr e, w') => (inr e, w')
    end.

(** [try: body except Exception as e: handler(e)], the handler running in
    the state the body left. *)
Definition mtry {A} (body : M A) (handler : exn -> M A) : M A :=
  fun w =>
    match body w with
    | (inl a, w') => (inl a, w')
    | (inr e, w') => handler e w'
    end.

Declare Scope m_scope.
Delimit Scope m_scope with M.
Notation "'do' x <- c 'in' k" := (mbind c (fun x => k))
  (at level 10, x name, c at level 100, k at level 200) : m_scope.
Notation "'run' c 'in' k" := (mbind c (fun _ => k))
  (at level 10, c at level 100, k at level 200) : m_scope.

(** [log_error(error)] *)
Definition log_error (e : exn) : M unit :=
  fun w =>
    (inl tt,
     {| w_fs := w_fs w; w_clock := w_clock w;
        w_log := (w_log w ++ [e])%list; w_posts := w_posts w |}).

Definition record_post (data : list pydict) : M unit :=
  fun w =>
    (inl tt,
     {| w_fs := w_fs w; w_clock := w_clock w;
        w_log := w_log w; w_posts := (w_posts w ++ [data])%list |}).

(** [send_data_to_saas_api]: one POST of [{"data": data}]; whatever is raised
    inside the [try], the status error included, leaves as a 500. *)
Definition send_data_to_saas_api (env : libs) (data : list pydict) : M string :=
  (run record_post data in
   lift (try_except
           (bind (http_post env data) (fun r =>
              let '(status, json) := r in
              if negb (status =? 200) then
                raise (HTTPException status "Error communicating with SaaS API")
              else ret json))
           (fun e =>
              raise (HTTPException 500
                       ("Failed to connect to SaaS API: " ++ str_exn e)))))%M.

(** ** [app/api/upload.py] *)

Module Upload.

(** The names bound at the top level of the module: its imports, [router],
    [limiter] and its three functions. *)
Definition MODULE_GLOBALS : list string :=
  ["json"; "docx"; "pd"; "pdfplumber";
   "APIRouter"; "UploadFile"; "File"; "HTTPException"; "Request"; "Depends";
   "get_current_user"; "send_data_to_saas_api"; "save_and_validate_file";
   "validate_onboarding_data"; "log_error"; "Limiter";
   "router"; "limiter"; "upload_file"; "handle_pdf"; "handle_docx"].

(** Evaluating a name that is neither local nor built in. *)
Definition lookup_global (globals : list string) (name : string)
  : result unit :=
  if existsb (String.eqb name) globals then ret tt else raise (NameError name).

(** [r'^\d+$']: decimal digits up to the end, or up to a final newline. *)
Definition AGE_PATTERN : Regex.re :=
  Regex.Seq (Regex.Plus (Regex.Class Py.isdecimal))
    (Regex.Alt Regex.Eps (Regex.Chr "010")).

(** [int(s)] *)
Definition py_int (s : string) : result Z :=
  match Py.signed_decimal s with
  | Some z => ret z
  | None => raise (ValueError ("invalid literal for int() with base 10: " ++ s))
  end.

Definition record_of (name email : string) (age : Z) : pydict :=
  <["name" := VStr name]> (<["email" := VStr email]> (<["age" := VInt age]> ∅)).

(** [next((i for i, x in enumerate(l) if p(x)), -1)], [None] for [-1]. *)
Fixpoint first_index {A} (p : A -> bool) (i : nat) (l : list A) : option nat :=
  match l with
  | [] => None
  | x :: l' => if p x then Some i else first_index p (S i) l'
  end.

Section Globals.

(** The global names in scope where the extractors run. *)
Variable globals : list string.

(** The body of the loop over the lines of a page: the record the line
    yields, if it yields one. *)
Definition pdf_line (line : string) : result (option pydict) :=
  if Py.startswith "name" (Py.lower (Py.strip line))
     || String.eqb (Py.strip line) "" then ret None
  else
    let columns := Py.split line in
    match first_index (Py.contains "@") 0%nat columns with
    | Some email_idx =>
        if (email_idx + 1 <? List.length columns)%nat then
          let name := Py.join " " (firstn email_idx columns) in
          match nth_error columns email_idx,
                nth_error columns (email_idx + 1) with
          | Some email, Some age =>
              bind (lookup_global globals "re") (fun _ =>
                if Regex.fullmatch AGE_PATTERN (Py.chars age) then
                  bind (py_int age) (fun n => ret (Some (record_of name email n)))
                else ret None)
          | _, _ => raise (IndexError "list index out of range")
          end
        else ret None
    | None => ret None
    end.

Fixpoint pdf_lines (lines : list string) (extracted_data : list pydict)
  : result (list pydict) :=
  match lines with
  | [] => ret extracted_data
  | line :: rest =>
      bind (pdf_line line) (fun r =>
        match r with
        | Some d => pdf_lines rest (extracted_data ++ [d])%list
        | None => pdf_lines rest extracted_data
        end)
  end.

Fixpoint pdf_pages (pages : list string) (extracted_data : list pydict)
  : result (list pydict) :=
  match pages with
  | [] => ret extracted_data
  | text :: rest =>
      if String.eqb text "" then pdf_pages rest extracted_data
      else
        bind (pdf_lines (Py.split_on "010" text) extracted_data)
             (pdf_pages rest)
  end.

(** [handle_pdf], on what [pdfplumber] reads from the file: the text of each
    page, or an exception. *)
Definition handle_pdf (pdf : result (list string)) : result (list pydict) :=
  try_except
    (bind pdf (fun pages =>
     bind (pdf_pages pages []) (fun extracted_data =>
       match extracted_data with
       | [] => raise (HTTPException 400 "No valid data found in the PDF")
       | _ => ret extracted_data
       end)))
    (fun e =>
       raise (HTTPException 400 ("Error processing PDF file: " ++ str_exn e))).

(** The body of the loop over the rows of a table, the header row apart. *)
Definition docx_row (cells : list string) : result (option pydict) :=
  match nth_error cells 0, nth_error cells 1, nth_error cells 2 with
  | Some c0, Some c1, Some c2 =>
      let name := Py.strip c0 in
      let email := Py.strip c1 in
      let age := Py.strip c2 in
      if Py.isdigit age then
        bind (py_int age) (fun n => ret (Some (record_of name email n)))
      else ret None
  | _, _, _ => raise (IndexError "tuple index out of range")
  end.

Fixpoint docx_rows (rows : list (list string)) (extracted_data : list pydict)
  : result (list pydict) :=
  match rows with
  | [] => ret extracted_data
  | row :: rest =>
      bind (docx_row row) (fun r =>
        match r with
        | Some d => docx_rows rest (extracted_data ++ [d])%list
        | None => docx_rows rest extracted_data
        end)
  end.

Fixpoint docx_tables_loop (tables : list (list (list string)))
  (extracted_data : list pydict) : result (list pydict) :=
  match tables with
  | [] => ret extracted_data
  | rows :: rest =>
      bind (docx_rows (tl rows) extracted_data) (docx_tables_loop rest)
  end.

(** [handle_docx], on what [docx] reads from the file: for each table its
    rows, for each row the text of its cells. *)
Definition handle_docx (doc : result (list (list (list string))))
  : result (list pydict) :=
  try_except
    (bind doc (fun tables =>
     bind (docx_tables_loop tables []) (fun extracted_data =>
       match extracted_data with
       | [] => raise (HTTPException 400 "No valid data found in the DOCX file")
       | _ => ret extracted_data
       end)))
    (fun e =>
       raise (HTTPException 400 ("Error processing DOCX file: " ++ str_exn e))).

End Globals.

Record UploadResponse := {
  status : string;
  message : string;
  saas_api_response : string
}.

Section Handler.

Variable env : libs.

(** [await save_and_validate_file(file)] on the disk and clock of the
    service. *)
Definition save (file : UploadFile) : M string :=
  fun w =>
    match FileUtils.save_and_validate_file (w_fs w) (w_clock w) file with
    | inl (file_path, fs') =>
        (inl file_path,
         {| w_fs := fs'; w_clock := w_clock w;
            w_log := w_log w; w_posts := w_posts w |})
    | inr e => (inr e, w)
    end.

(** Opening the saved file for a parser. *)
Definition read_file (w : world) (file_path : string)
  : result (list Byte.byte) :=
  match w_fs w !! file_path with
  | Some data => ret data
  | None => raise (LibraryError "No such file or directory")
  end.

Definition parse_with {A} (parse : list Byte.byte -> result A)
  (file_path : string) : M A :=
  fun w => (bind (read_file w file_path) parse, w).

(** The dispatch on the declared content type. *)
Definition extract (file : UploadFile) (file_path : string) : M (list pydict) :=
  let declared (t : string) : bool :=
    match content_type file with
    | Some ct => String.eqb ct t
    | None => false
    end in
  if declared "application/json" then parse_with (pd_read_json env) file_path
  else if declared "text/csv" then parse_with (pd_read_csv env) file_path
  else if declared "application/vnd.ms-excel"
          || declared "application/vnd.openxmlformats-officedocument.spreadsheetml.sheet"
  then parse_with (pd_read_excel env) file_path
  else if declared "application/pdf" then
    fun w =>
      (handle_pdf MODULE_GLOBALS
         (bind (read_file w file_path) (pdfplumber_pages env)), w)
  else if declared "application/vnd.openxmlformats-officedocument.wordprocessingml.document"
  then
    fun w =>
      (handle_docx (bind (read_file w file_path) (docx_tables env)), w)
  else mraise (HTTPException 400 "Unsupported file type").

(** The validation loop: the first entry that fails ends it.  (The report of
    the schema is the only exception [validate_onboarding_data] raises.) *)
Fixpoint validate_entries (onboarding_data validated_data : list pydict)
  : M (list pydict) :=
  match onboarding_data with
  | [] => mret validated_data
  | entry :: rest =>
      match Validation.validate_onboarding_data entry with
      | inl validated_entry =>
          validate_entries rest (validated_data ++ [validated_entry])%list
      | inr (ValidationValueError errors as e) =>
          (run log_error e in
           match errors with
           | first :: _ =>
               mraise (HTTPException 400
                         ("Validation error in " ++ loc_of first
                          ++ " column data"))
           | [] => mraise (IndexError "list index out of range")
           end)%M
      | inr e => mraise e
      end
  end.

Definition SUCCESS_MESSAGE : string :=
  "File uploaded, data validated, saved, and successfully sent to the SaaS platform.".

(** [upload_file], for an authenticated request. *)
Definition upload_file (file : UploadFile) : M UploadResponse :=
  mtry
    (do file_path <- save file in
     do onboarding_data <- extract file file_path in
     do validated_data <- validate_entries onboarding_data [] in
     do response <- send_data_to_saas_api env validated_data in
     mret {| status := "Success"; message := SUCCESS_MESSAGE;
             saas_api_response := response |})%M
    (fun e =>
       (run log_error e in
        mraise (HTTPException 500 ("An error occurred: " ++ str_exn e)))%M).

End Handler.

End Upload.

(** ** [app/auth.py] and the login route of [main.py] *)

(** A value of a claim.  (Null, arrays, objects and fractions do not occur
    among the claims this service writes or reads.) *)
Inductive jval :=
| JBool (b : bool)
| JInt (z : Z)
| JStr (s : string).

Abbreviation claims := (gmap string jval).

(** What the middle segment of a token decodes to. *)
Inductive payload :=
| NotJson
| NotObject
| Claims (c : claims).

(** A bearer token.  Signatures are symbolic: a well-formed token records
    the algorithm named in its header and the key it was signed with, and
    its signature verifies under that key only. *)
Inductive token :=
| Malformed
| Signed (alg : string) (key : string) (p : payload).

Module Auth.

Definition ALGORITHM : string := "HS256".
Definition ACCESS_TOKEN_EXPIRE_MINUTES : Z := 30.

(** [timedelta(minutes=m)], in microseconds. *)
Definition minutes (m : Z) : Z := m * 60 * 1000000.

(** [timegm(dt.utctimetuple())]: whole seconds since the epoch. *)
Definition timegm (dt : Z) : Z := dt / 1000000.

Record UserInDB := {
  username : string;
  email : string;
  full_name : option string;
  hashed_password : string
}.

Record UserLogin := {
  login_username : string;
  login_password : string
}.

Record Token := {
  access_token : token;
  token_type : string
}.

Definition UNAUTHORIZED (detail : string) : exn := HTTPException 401 detail.

(** The integer a numeric claim stands for, as the token library reads it;
    [None] where it reports that the claim must be an integer. *)
Definition claim_int (v : jval) : option Z :=
  match v with
  | JInt z => Some z
  | JBool b => Some (if b then 1 else 0)
  | JStr s => Py.signed_decimal s
  end.

Definition is_str (v : jval) : bool :=
  match v with
  | JStr _ => true
  | _ => false
  end.

(** A claim that must be an integer when present; [check] is applied to
    it. *)
Definition integer_claim (c : claims) (k : string)
  (check : Z -> result unit) : result unit :=
  match c !! k with
  | None => ret tt
  | Some v =>
      match claim_int v with
      | Some z => check z
      | None => raise (JWTError ("claim (" ++ k ++ ") must be an integer."))
      end
  end.

(** A claim that must be a string when present. *)
Definition string_claim (c : claims) (k : string) (what : string)
  : result unit :=
  match c !! k with
  | None => ret tt
  | Some v =>
      if is_str v then ret tt
      else raise (JWTError (what ++ " must be a string."))
  end.

(** A claim that is refused when present, nothing being given to compare it
    with. *)
Definition unmatched_claim (c : claims) (k : string) (msg : string)
  : result unit :=
  match c !! k with
  | None => ret tt
  | Some _ => raise (JWTError msg)
  end.

(** The checks of the token library on the registered claims, with its
    default options and neither audience, issuer, subject nor access token
    given: [iat], [nbf], [exp], [aud], [sub], [jti], [at_hash], in this
    order.  [now] is in whole seconds. *)
Definition validate_claims (c : claims) (now : Z) : result unit :=
  bind (integer_claim c "iat" (fun _ => ret tt)) (fun _ =>
  bind (integer_claim c "nbf" (fun nbf =>
          if now <? nbf then raise (JWTError "The token is not yet valid (nbf)")
          else ret tt)) (fun _ =>
  bind (integer_claim c "exp" (fun exp =>
          if exp <? now then raise (JWTError "Signature has expired.")
          else ret tt)) (fun _ =>
  bind (unmatched_claim c "aud" "Invalid audience") (fun _ =>
  bind (string_claim c "sub" "Subject") (fun _ =>
  bind (string_claim c "jti" "JWT ID") (fun _ =>
  unmatched_claim c "at_hash"
    "No access_token provided to compare against at_hash claim.")))))).

Section Secret.

(** The signing key, read from the environment when the service starts. *)
Variable SECRET_KEY : string.

(** [jwt.encode(claims, SECRET_KEY, algorithm=ALGORITHM)] *)
Definition jwt_encode (c : claims) : token := Signed ALGORITHM SECRET_KEY (Claims c).

(** [jwt.decode(token, SECRET_KEY, algorithms=[ALGORITHM])] at the time
    [utcnow]. *)
Definition jwt_decode (t : token) (utcnow : Z) : result claims :=
  match t with
  | Malformed => raise (JWTError "Not enough segments")
  | Signed alg key p =>
      if negb (String.eqb alg ALGORITHM) then
        raise (JWTError "The specified alg value is not allowed")
      else if negb (String.eqb key SECRET_KEY) then
        raise (JWTError "Signature verification failed.")
      else
        match p with
        | NotJson => raise (JWTError "Invalid payload string")
        | NotObject =>
            raise (JWTError "Invalid payload string: must be a json object")
        | Claims c => bind (validate_claims c (timegm utcnow)) (fun _ => ret c)
        end
  end.

(** [create_access_token]; [utcnow] and [expires_delta] are in microseconds.
    A zero [timedelta] is false, so it takes the default like [None].  The
    encoder writes the expiry as whole seconds. *)
Definition create_access_token (data : claims) (expires_delta : option Z)
  (utcnow : Z) : token :=
  let to_encode := data in
  let expire :=
    match expires_delta with
    | Some d => if d =? 0 then utcnow + minutes 15 else utcnow + d
    | None => utcnow + minutes 15
    end in
  let to_encode := <["exp" := JInt (timegm expire)]> to_encode in
  jwt_encode to_encode.

(** [verify_token]: what [payload.get("sub")] is, or a 401. *)
Definition verify_token (t : token) (utcnow : Z) : result jval :=
  match jwt_decode t utcnow with
  | inl payload =>
      match payload !! "sub" with
      | None => raise (UNAUTHORIZED "Invalid authentication credentials")
      | Some username => ret username
      end
  | inr (JWTError _) => raise (UNAUTHORIZED "Invalid authentication credentials")
  | inr e => raise e
  end.

(** [get_current_user] *)
Definition get_current_user (t : token) (utcnow : Z) : result jval :=
  verify_token t utcnow.

Section Passwords.

(** [pwd_context.verify] *)
Variable verify_password : string -> string -> bool.

(** [authenticate_user] *)
Definition authenticate_user (db : gmap string UserInDB)
  (username password : string) : option UserInDB :=
  match db !! username with
  | None => None
  | Some user =>
      if negb (verify_password password (hashed_password user)) then None
      else Some user
  end.

(** The route [POST /login]. *)
Definition login (db : gmap string UserInDB) (user : UserLogin) (utcnow : Z)
  : result Token :=
  match authenticate_user db (login_username user) (login_password user) with
  | None => raise (UNAUTHORIZED "Incorrect username or password")
  | Some user_in_db =>
      let access_token_expires := minutes ACCESS_TOKEN_EXPIRE_MINUTES in
      let access_token :=
        create_access_token {[ "sub" := JStr (username user_in_db) ]}
          (Some access_token_expires) utcnow in
      ret {| access_token := access_token; token_type := "bearer" |}
  end.

End Passwords.

End Secret.

End Auth.


(** ** [main.py]: the route [POST /signup], and the route [POST /upload]
       behind its dependency *)

Module Main.
Import Auth.

Record UserCreate := {
  create_username : string;
  create_email : string;
  create_full_name : option string;
  create_password : string
}.

(** The public profile: the [response_model] of the signup route keeps
    these fields of what the handler returns. *)
Record User := {
  user_username : string;
  user_email : string;
  user_full_name : option string
}.

Definition public (u : UserInDB) : User :=
  {| user_username := username u;
     user_email := email u;
     user_full_name := full_name u |}.

Section Hashing.

(** [get_password_hash]: the hash of a password under the salt drawn for
    it. *)
Variable get_password_hash : string -> string -> string.

(** The route [POST /signup]: the profile returned and the store after the
    call. *)
Definition signup (fake_users_db : gmap string UserInDB) (salt : string)
  (user : UserCreate) : result (User * gmap string UserInDB) :=
  match fake_users_db !! create_username user with
  | Some _ => raise (HTTPException 400 "Username already registered")
  | None =>
      let hashed_password := get_password_hash salt (create_password user) in
      let user_in_db :=
        {| username := create_username user;
           email := create_email user;
           full_name := create_full_name user;
           hashed_password := hashed_password |} in
      ret (public user_in_db,
           <[create_username user := user_in_db]> fake_users_db)
  end.

End Hashing.

Section Route.

Variable SECRET_KEY : string.
Variable env : libs.

(** [oauth2_scheme]: the token of the [Authorization] header when the
    header is there and its scheme is [bearer], a 401 otherwise. *)
Definition oauth2_scheme (authorization : option token) : result token :=
  match authorization with
  | Some t => ret t
  | None => raise (HTTPException 401 "Not authenticated")
  end.

(** The route [POST /upload] for a request within its quota: the dependency
    [get_current_user] is resolved first, at the time of the clock, and the
    handler runs only if it returns. *)
Definition upload_route (authorization : option token) (file : UploadFile)
  : M Upload.UploadResponse :=
  fun w =>
    match bind (oauth2_scheme authorization)
               (fun t => get_current_user SECRET_KEY t (w_clock w)) with
    | inl current_user => Upload.upload_file env file w
    | inr e => (inr e, w)
    end.

End Route.

End Main.

(** ** [app/mock_saas/mock_saas_api.py] *)

Module MockSaas.

Record CustomerData := {
  name : string;
  email : string;
  age : Z
}.

Definition MOCK_API_KEY : string := "cQb1fAf7rzwYGw4Kw4qGekpm8uOvv3nA".

(** What the endpoint answers on success. *)
Record Receipt := {
  status : string;
  message : string;
  data : list CustomerData
}.

(** [submit_data] *)
Definition submit_data (data : list CustomerData) (x_api_key : string)
  : result Receipt :=
  if negb (String.eqb x_api_key MOCK_API_KEY) then
    raise (HTTPException 401 "Invalid API key")
  else
    ret {| status := "success";
           message := "Data received successfully";
           data := data |}.

(** An [int] field of the body, read in the lax mode. *)
Definition lax_int (v : pyval) : option Z :=
  match v with
  | VInt z => Some z
  | VBool b => Some (if b then 1 else 0)
  | VFloat f => Validation.float_as_int f
  | VStr s => Validation.str_as_int s
  | VNone => None
  end.

(** One entry of the body as a [CustomerData]. *)
Definition parse_customer (d : pydict) : option CustomerData :=
  match d !! "name", d !! "email", d !! "age" with
  | Some (VStr n), Some (VStr e), Some a =>
      match lax_int a with
      | Some z => Some {| name := n; email := e; age := z |}
      | None => None
      end
  | _, _, _ => None
  end.

Fixpoint parse_customers (body : list pydict) : option (list CustomerData) :=
  match body with
  | [] => Some []
  | d :: rest =>
      match parse_customer d, parse_customers rest with
      | Some c, Some cs => Some (c :: cs)
      | _, _ => None
      end
  end.

Section Wire.

(** The JSON text of a receipt and of an error detail. *)
Variable json_of_receipt : Receipt -> string.
Variable json_of_detail : string -> string.

(** [POST /api/saas/submit] as a client sees it: the framework answers 422
    when the header is missing or the body does not fit [CustomerDataArray],
    and turns an [HTTPException] of the handler into its status. *)
Definition endpoint (x_api_key : option string) (body : list pydict)
  : Z * string :=
  match x_api_key, parse_customers body with
  | Some key, Some data =>
      match submit_data data key with
      | inl receipt => (200, json_of_receipt receipt)
      | inr (HTTPException status_code detail) =>
          (status_code, json_of_detail detail)
      | inr _ => (500, "Internal Server Error")
      end
  | _, _ => (422, json_of_detail "Unprocessable Entity")
  end.

(** The libraries of a deployment whose downstream API is the mock,
    reached with the key [SaaS_API_KEY] of the client. *)
Definition with_mock (SaaS_API_KEY : string) (parsers : libs) : libs :=
  {| pd_read_json := pd_read_json parsers;
     pd_read_csv := pd_read_csv parsers;
     pd_read_excel := pd_read_excel parsers;
     pdfplumber_pages := pdfplumber_pages parsers;
     docx_tables := docx_tables parsers;
     http_post := fun body => ret (endpoint (Some SaaS_API_KEY) body) |}.

End Wire.

End MockSaas.

(** ** Notions used in the statements *)

Module Notions.
Import Py Regex FileUtils Validation Upload Auth.

Definition no_slash (s : string) : Prop := contains "/" s = false.

(** The suffix the check looks at. *)
Definition checked_suffix (file : UploadFile) : string :=
  suffix (in_upload_dir (basename (filename file))).

(** The upload with its filename cut down to the last component. *)
Definition stripped (file : UploadFile) : UploadFile :=
  {| filename := basename (filename file);
     content_type := content_type file;
     body := body file |}.

(** A word of the expression occurs somewhere in the string. *)
Definition found (r : re) (s : string) : Prop :=
  exists pre m post,
    Py.chars s = (pre ++ m ++ post)%list /\ Matches r m.

Definition no_at (l : list ascii) : Prop :=
  forallb (fun x => negb (Ascii.eqb x "@")) l = true.

(** At least one character, one ["@"], at least one character, one ["."],
    at least one character, none of these characters an ["@"]. *)
Definition address_shape (m : list ascii) : Prop :=
  exists a u v,
    m = (a ++ "@"%char :: u ++ "."%char :: v)%list
    /\ a <> [] /\ u <> [] /\ v <> []
    /\ no_at a /\ no_at u /\ no_at v.


(** No whitespace in a string. *)
Definition spaceless (l : list ascii) : Prop :=
  forallb (fun c => negb (isspace c)) l = true.

(** The record [{name, email, age}]. *)
Definition record3 (n e : string) (a : pyval) : pydict :=
  <["name" := VStr n]> (<["email" := VStr e]> (<["age" := a]> ∅)).

(** Letters and spaces only. *)
Definition letters_and_spaces (n : string) : Prop :=
  forallb (fun c => isalpha_char c || Ascii.eqb c " ") (chars n) = true.

Definition has_letter (n : string) : Prop :=
  existsb isalpha_char (chars n) = true.

Definition valid (d : pydict) : Prop :=
  exists v, validate_onboarding_data d = ret v.

(** The record a line of text stands for, as the specification describes
    the scan: a blank line and a header line give none; otherwise the line is
    split on whitespace, the first token with an ["@"] is the email, the
    tokens before it joined by spaces are the name, the token after it is
    the age, and the line counts only if that token is all digits. *)
Definition line_record (line : string) : option pydict :=
  if String.eqb (strip line) "" || startswith "name" (lower (strip line))
  then None
  else
    let tokens := split line in
    match first_index (contains "@") 0%nat tokens with
    | Some i =>
        match nth_error tokens i, nth_error tokens (S i) with
        | Some email, Some age =>
            if all_decimal (chars age) then
              Some (record_of (join " " (firstn i tokens)) email
                      (digits_value (chars age)))
            else None
        | _, _ => None
        end
    | None => None
    end.

(** The records of a document, page by page and line by line. *)
Definition document_records (pages : list string) : list pydict :=
  flat_map (fun text => omap line_record (split_on "010" text)) pages.

(** The four causes of rejection the specification lists. *)
Definition signature_invalid (key : string) (t : token) : bool :=
  match t with
  | Malformed => true
  | Signed alg k _ => negb (String.eqb alg ALGORITHM) || negb (String.eqb k key)
  end.

Definition payload_unparsable (t : token) : bool :=
  match t with
  | Signed _ _ NotJson | Signed _ _ NotObject => true
  | _ => false
  end.

Definition expiry_past (t : token) (utcnow : Z) : bool :=
  match t with
  | Signed _ _ (Claims c) =>
      match c !! "exp" with
      | Some v =>
          match claim_int v with
          | Some exp => exp <? timegm utcnow
          | None => false
          end
      | None => false
      end
  | _ => false
  end.

Definition sub_absent (t : token) : bool :=
  match t with
  | Signed _ _ (Claims c) =>
      match c !! "sub" with
      | None => true
      | Some _ => false
      end
  | _ => false
  end.

Definition listed_cause (key : string) (t : token) (utcnow : Z) : bool :=
  signature_invalid key t || payload_unparsable t
  || expiry_past t utcnow || sub_absent t.

(** The answer of [verify_token] to a token it does not accept. *)
Definition rejected (r : result jval) : Prop :=
  r = raise (UNAUTHORIZED "Invalid authentication credentials").

(** The payload of the tokens this service issues: a subject and an expiry,
    either of which may be missing. *)
Definition plain_claims (sub : option string) (exp : option Z) : claims :=
  let c : claims :=
    match sub with
    | Some u => {[ "sub" := JStr u ]}
    | None => ∅
    end in
  match exp with
  | Some e => <["exp" := JInt e]> c
  | None => c
  end.

(** The only exception of a computation is the token library's. *)
Definition jwt_only {A} (r : result A) : Prop :=
  forall e, r = inr e -> exists msg, e = JWTError msg.

End Notions.

(** ** Inputs used in the examples *)

Module Samples.
Import Py FileUtils Validation Upload Auth Notions.

Definition traversal_txt : UploadFile :=
  {| filename := "../../etc/notes.txt";
     content_type := Some "text/csv";
     body := [] |}.

Definition upper_csv : UploadFile :=
  {| filename := "DATA.CSV"; content_type := Some "text/csv"; body := [] |}.

Definition data_csv (content : list Byte.byte) : UploadFile :=
  {| filename := "data.csv"; content_type := Some "text/csv";
     body := content |}.

(** A disk that already holds [uploads/data.csv]. *)
Definition disk0 : files := {[ "uploads/data.csv" := [Byte.x00] ]}.

Definition disk1 : files :=
  <["uploads/data_1700000000.csv" := [Byte.x01]]> disk0.

Definition disk2 : files :=
  <["uploads/data_1700000000.csv" := [Byte.x02]]> disk1.


Definition string_age_record : pydict :=
  <["name" := VStr "Jane Doe"]>
    (<["email" := VStr "jane@x.com"]> (<["age" := VStr "30"]> ∅)).

(** A page with a header line and one well-formed line. *)
Definition one_record_page : string :=
  "Name Email Age" ++ String "010" "Jane Doe jane@x.com 30".

(** Libraries that answer with the given rows for a CSV file, and a
    downstream API that accepts. *)
Definition csv_libs (rows : list pydict) : libs :=
  {| pd_read_json := fun _ => raise (LibraryError "not JSON");
     pd_read_csv := fun _ => ret rows;
     pd_read_excel := fun _ => raise (LibraryError "not a workbook");
     pdfplumber_pages := fun _ => ret [one_record_page];
     docx_tables := fun _ => raise (LibraryError "not a document");
     http_post := fun _ => ret (200, "{}") |}.

Definition start : world :=
  {| w_fs := ∅; w_clock := 1700000000000000; w_log := []; w_posts := [] |}.

Definition upload (name type : string) : UploadFile :=
  {| filename := name; content_type := Some type; body := [] |}.

Definition jane : pydict := record_of "Jane Doe" "jane@x.com" 30.

Definition john3 : pydict := record_of "John3" "john@x.com" 41.

Definition SECRET : string := "s3cret".

(** A token with a valid signature, a subject, an expiry at second 3000, and
    a not-before time at second 2000. *)
Definition early_token : token :=
  Signed ALGORITHM SECRET
    (Claims (<["nbf" := JInt 2000]> (plain_claims (Some "alice") (Some 3000)))).

End Samples.

(** ** Further notions *)

Module ExtraNotions.
Import Py Regex FileUtils Validation Upload Auth Notions.

(** A character of a printed integer. *)
Definition sign_or_digit (c : ascii) : bool := isdecimal c || Ascii.eqb c "-".

(** The path where an upload is meant to go. *)
Definition target_of (file : UploadFile) : string :=
  in_upload_dir (basename (filename file)).

(** Digits that [int()] does not read: [isdigit] holds, and some character
    is not a decimal digit. *)
Definition unreadable_digits (s : string) : bool :=
  isdigit s && negb (all_decimal (chars s)).

(** A row of a table that the extractor cannot get past: it has fewer than
    three cells, or its age is made of such digits. *)
Definition aborting_row (row : list string) : bool :=
  match nth_error row 2 with
  | None => true
  | Some c2 => unreadable_digits (strip c2)
  end.

(** The record a row of a table stands for: its first three cells, trimmed,
    when the third is made of decimal digits. *)
Definition docx_row_record (row : list string) : option pydict :=
  match row with
  | c0 :: c1 :: c2 :: _ =>
      if all_decimal (chars (strip c2)) then
        Some (record_of (strip c0) (strip c1)
                (digits_value (chars (strip c2))))
      else None
  | _ => None
  end.


(** A record as the extractors build it, with an age that is not
    negative. *)
Definition extracted_record (r : pydict) : Prop :=
  exists (n e : string) (a : Z), r = record_of n e a /\ 0 <= a.


(** A table with a header, a row that stands for a record, a row whose age
    is not a number, and then a row of two cells. *)
Definition table_with_short_row : list (list string) :=
  [["name"; "email"; "age"];
   [" Jane Doe "; "jane@x.com"; "30"];
   ["Bob"; "bob@y.org"; "n/a"];
   ["Eve"; "eve@z.net"]].


(** How the handler of the upload ends on an exception: the cause is
    logged and leaves as a 500. *)
Definition failed {A} (e : exn) (w : world) : result A * world :=
  (raise (HTTPException 500 ("An error occurred: " ++ str_exn e)),
   snd (log_error e w)).

(** The state once a payload has been posted. *)
Definition posted (data : list pydict) (w : world) : world :=
  snd (record_post data w).

(** A record that validation has returned. *)
Definition validated (v : pydict) : Prop :=
  exists d, validate_onboarding_data d = ret v.

(** Record by record, the second list is what validation returns for the
    first. *)
Definition validates_to (ds vs : list pydict) : Prop :=
  Forall2 (fun d v => validate_onboarding_data d = ret v) ds vs.

(** The answer of the handler when all went well. *)
Definition success (response : string) : UploadResponse :=
  {| status := "Success"; message := SUCCESS_MESSAGE;
     saas_api_response := response |}.

(** A field check that passes. *)
Definition passes {A} (r : A + field_error) : bool :=
  match r with
  | inl _ => true
  | inr _ => false
  end.

(** The fields of a record that fail their check, in the order of the
    schema. *)
Definition failing_fields (d : pydict) : list string :=
  ((if passes (validate_name (d !! "name")) then [] else ["name"])
   ++ (if passes (validate_email (d !! "email")) then [] else ["email"])
   ++ (if passes (validate_age (d !! "age")) then [] else ["age"]))%list.

(** The time a token lives: the expiry the caller gives, or 15 minutes when
    it gives none or a zero one. *)
Definition effective_ttl (expires_delta : option Z) : Z :=
  match expires_delta with
  | Some d => if d =? 0 then minutes 15 else d
  | None => minutes 15
  end.

(** The credentials of an account, as a login sends them. *)
Definition credentials (user : Main.UserCreate) : UserLogin :=
  {| login_username := Main.create_username user;
     login_password := Main.create_password user |}.

(** A hash for the examples: the salt, a dollar sign, the password; and its
    check. *)
Definition sample_hash (salt password : string) : string :=
  salt ++ "$" ++ password.

Definition sample_verify (password hashed : string) : bool :=
  match rfind "$" hashed with
  | Some i => String.eqb (drop_str (S i) hashed) password
  | None => false
  end.

Definition testuser : Main.UserCreate :=
  {| Main.create_username := "testuser";
     Main.create_email := "testuser@example.com";
     Main.create_full_name := Some "Test User";
     Main.create_password := "testpassword" |}.

(** The record of a customer, as the upload forwards it. *)
Definition as_record (c : MockSaas.CustomerData) : pydict :=
  record_of (MockSaas.name c) (MockSaas.email c) (MockSaas.age c).

(** What the mock answers with for the customers it received. *)
Definition received (data : list MockSaas.CustomerData) : MockSaas.Receipt :=
  {| MockSaas.status := "success";
     MockSaas.message := "Data received successfully";
     MockSaas.data := data |}.

(** A wire format for the examples: the status and the number of
    customers of a receipt; a detail as it is. *)
Definition sample_json_of_receipt (r : MockSaas.Receipt) : string :=
  MockSaas.status r ++ " " ++ str_of_int (Z.of_nat (length (MockSaas.data r))).

Definition sample_json_of_detail (detail : string) : string := detail.

End ExtraNotions.

(** * Properties *)

(** ** Strings *)

Module PyFacts.
Import Py.

Example split_runs_of_whitespace :
  split ("  Jane   Doe" ++ String "009" "jane@x.com 30 ")
  = ["Jane"; "Doe"; "jane@x.com"; "30"].
Proof. reflexivity. Qed.

Example split_on_keeps_empty_pieces :
  split_on "010" ("a" ++ String "010" (String "010" "b"))
  = ["a"; ""; "b"].
Proof. reflexivity. Qed.

Example strip_both_ends : strip "  Name Email  " = "Name Email".
Proof. reflexivity. Qed.

Example lower_header : lower "NAME Email" = "name email".
Proof. reflexivity. Qed.

Example isalpha_needs_a_character :
  isalpha "" = false /\ isalpha "Jane" = true /\ isalpha "John3" = false.
Proof. repeat split. Qed.

Example str_of_int_decimal :
  str_of_int 1700000000 = "1700000000" /\ str_of_int 0 = "0".
Proof. split; reflexivity. Qed.

Example signed_decimal_literals :
  signed_decimal " 30 " = Some 30
  /\ signed_decimal "-7" = Some (-7)
  /\ signed_decimal "3O" = None
  /\ signed_decimal "" = None.
Proof. repeat split. Qed.

Lemma chars_str (l : list ascii) : chars (str l) = l.
Proof. apply list_ascii_of_string_of_list_ascii. Qed.

Lemma str_chars (s : string) : str (chars s) = s.
Proof. apply string_of_list_ascii_of_string. Qed.

Lemma chars_app (a b : string) : chars (a ++ b) = (chars a ++ chars b)%list.
Proof. induction a as [|c a IH]; simpl; [reflexivity | now rewrite IH]. Qed.

Lemma chars_inj (a b : string) : chars a = chars b -> a = b.
Proof. intros H. rewrite <- (str_chars a), <- (str_chars b). now rewrite H. Qed.

Lemma len_app (a b : string) : len (a ++ b) = (len a + len b)%nat.
Proof. unfold len. rewrite chars_app. apply length_app. Qed.

Lemma rfind_go_absent c i last l :
  existsb (Ascii.eqb c) l = false -> rfind_go c i last l = last.
Proof.
  revert i last. induction l as [|x l IH]; intros i last H; simpl in *.
  - reflexivity.
  - apply orb_false_iff in H as [Hx Hl].
    rewrite Ascii.eqb_sym in Hx. rewrite Hx. now apply IH.
Qed.

Lemma rfind_go_app c i last l1 l2 :
  rfind_go c i last (l1 ++ l2)
  = rfind_go c (i + List.length l1) (rfind_go c i last l1) l2.
Proof.
  revert i last. induction l1 as [|x l1 IH]; intros i last; simpl.
  - now rewrite Nat.add_0_r.
  - rewrite IH. f_equal. lia.
Qed.

(** The last occurrence of [c] splits the list. *)
Lemma rfind_go_last c i last l1 l2 :
  existsb (Ascii.eqb c) l2 = false ->
  rfind_go c i last (l1 ++ c :: l2) = Some (i + List.length l1)%nat.
Proof.
  intros H. rewrite rfind_go_app. simpl.
  rewrite Ascii.eqb_refl. now apply rfind_go_absent.
Qed.

Lemma last_occurrence c l :
  existsb (Ascii.eqb c) l = true ->
  exists l1 l2, l = (l1 ++ c :: l2)%list /\ existsb (Ascii.eqb c) l2 = false.
Proof.
  induction l as [|x l IH]; simpl; intros H; [discriminate|].
  destruct (existsb (Ascii.eqb c) l) eqn:Hl.
  - destruct (IH eq_refl) as (l1 & l2 & -> & H2).
    exists (x :: l1), l2. split; [reflexivity | assumption].
  - rewrite orb_false_r in H. apply Ascii.eqb_eq in H. subst x.
    exists [], l. split; [reflexivity | assumption].
Qed.

Lemma skipn_after (A : Type) (l1 l2 : list A) (x : A) :
  skipn (S (List.length l1)) (l1 ++ x :: l2) = l2.
Proof. induction l1 as [|y l1 IH]; simpl; [reflexivity | exact IH]. Qed.

End PyFacts.

(** ** Saving an upload *)

Module FileUtilsFacts.
Import Py PyFacts FileUtils Notions.

Example basename_of_a_traversal : basename "../../etc/passwd.csv" = "passwd.csv".
Proof. reflexivity. Qed.

Example suffix_and_stem :
  suffix "uploads/report.tar.gz" = ".gz"
  /\ stem "uploads/report.tar.gz" = "report.tar"
  /\ suffix "uploads/.csv" = ""
  /\ suffix "uploads/data." = ""
  /\ suffix "uploads/README" = "".
Proof. repeat split. Qed.

Example stamped_name_of_a_collision :
  stamped_name "uploads/data.csv" 1700000000 = "data_1700000000.csv".
Proof. reflexivity. Qed.

Lemma basename_plain (base : string) : no_slash base -> basename base = base.
Proof.
  unfold no_slash, contains, basename, rfind. intros H.
  now rewrite rfind_go_absent.
Qed.

(** Whatever directory is put in front of a plain name is dropped. *)
Lemma basename_strips (dir base : string) :
  no_slash base -> basename (dir ++ "/" ++ base) = base.
Proof.
  unfold no_slash, contains, basename, rfind, drop_str. intros H.
  rewrite chars_app. simpl.
  rewrite rfind_go_last by assumption. simpl.
  change (skipn _ _) with
    (skipn (S (List.length (chars dir))) (chars dir ++ "/"%char :: chars base)).
  now rewrite skipn_after, str_chars.
Qed.

(** The result of [basename] has no directory part left. *)
Lemma basename_no_slash (p : string) : no_slash (basename p).
Proof.
  unfold no_slash, basename, rfind.
  destruct (existsb (Ascii.eqb "/") (chars p)) eqn:H.
  - destruct (last_occurrence _ _ H) as (l1 & l2 & Hp & H2).
    rewrite Hp, rfind_go_last by assumption. simpl.
    unfold drop_str. rewrite Hp.
    change (skipn _ _) with (skipn (S (List.length l1)) (l1 ++ "/"%char :: l2)).
    rewrite skipn_after. unfold contains. now rewrite chars_str.
  - rewrite rfind_go_absent by assumption. exact H.
Qed.

Lemma basename_idempotent (p : string) : basename (basename p) = basename p.
Proof. apply basename_plain, basename_no_slash. Qed.

Lemma is_allowed_In (sfx : string) :
  is_allowed sfx = true <-> In sfx ALLOWED_SUFFIXES.
Proof.
  unfold is_allowed. rewrite existsb_exists. split.
  - intros (x & Hx & E). apply String.eqb_eq in E. now subst.
  - intros H. exists sfx. split; [assumption | apply String.eqb_refl].
Qed.

Lemma save_rejects (fs : files) (clock : Z) (file : UploadFile) :
  ~ In (checked_suffix file) ALLOWED_SUFFIXES ->
  save_and_validate_file fs clock file
  = raise (HTTPException 400 "Unsupported file type").
Proof.
  intros H. unfold save_and_validate_file.
  fold (checked_suffix file).
  destruct (is_allowed (checked_suffix file)) eqn:E; [|reflexivity].
  apply is_allowed_In in E. contradiction.
Qed.

Lemma save_accepts (fs : files) (clock : Z) (file : UploadFile) :
  In (checked_suffix file) ALLOWED_SUFFIXES ->
  let target := in_upload_dir (basename (filename file)) in
  let file_path :=
    if path_exists fs target
    then in_upload_dir (stamped_name target (unix_time clock))
    else target in
  save_and_validate_file fs clock file
  = ret (file_path, <[file_path := body file]> fs).
Proof.
  intros H. unfold save_and_validate_file.
  fold (checked_suffix file).
  apply is_allowed_In in H. now rewrite H.
Qed.

End FileUtilsFacts.

Module SaveSpec.
Import Py PyFacts FileUtils Notions Samples FileUtilsFacts.

Lemma save_stripped (fs : files) (clock : Z) (file : UploadFile) :
  save_and_validate_file fs clock file
  = save_and_validate_file fs clock (stripped file).
Proof.
  unfold save_and_validate_file, stripped. simpl.
  now rewrite basename_idempotent.
Qed.

Lemma lower_allowed (sfx : string) :
  In sfx ALLOWED_SUFFIXES -> lower sfx = sfx.
Proof.
  intros H. repeat (destruct H as [<- | H]; [reflexivity|]). destruct H.
Qed.

Lemma contains_skipn c n l :
  existsb (Ascii.eqb c) l = false ->
  existsb (Ascii.eqb c) (skipn n l) = false.
Proof.
  revert n. induction l as [|x l IH]; intros n H.
  - now destruct n.
  - destruct n as [|n]; [exact H|].
    simpl in H. apply orb_false_iff in H as [_ H].
    change (skipn (S n) (x :: l)) with (skipn n l). now apply IH.
Qed.

Lemma basename_keeps_absent c (p : string) :
  contains c p = false -> contains c (basename p) = false.
Proof.
  unfold contains, basename. intros H.
  destruct (rfind "/" p); [|assumption].
  unfold drop_str. rewrite chars_str. now apply contains_skipn.
Qed.

Lemma path_name_in_upload_dir (b : string) :
  no_slash b ->
  path_name (in_upload_dir b)
  = if String.eqb b "" || String.eqb b "." then UPLOAD_DIR else b.
Proof.
  intros H. unfold in_upload_dir, path_name.
  destruct (String.eqb b "" || String.eqb b "."); [reflexivity|].
  now apply basename_strips.
Qed.

Lemma suffix_without_dot (name : string) :
  contains "." name = false -> suffix_index name = None.
Proof.
  unfold contains, suffix_index, rfind. intros H.
  now rewrite rfind_go_absent.
Qed.

Lemma checked_suffix_without_dot (file : UploadFile) :
  contains "." (filename file) = false -> checked_suffix file = "".
Proof.
  intros H. unfold checked_suffix, suffix.
  rewrite path_name_in_upload_dir by apply basename_no_slash.
  destruct (String.eqb _ "" || String.eqb _ "."); [reflexivity|].
  rewrite suffix_without_dot; [reflexivity|].
  now apply basename_keeps_absent.
Qed.

(** C5.  [save_and_validate_file] strips the directory components of the
    uploaded filename: the name it uses has no slash, it is the plain name
    [base] when the filename is [dir/base], and the call does exactly what it
    does for the stripped filename.  When the suffix of that name is not one
    of [.csv], [.xlsx], [.pdf], [.docx], [.json] the call raises the 400
    "Unsupported file type"; this holds for every state of the disk, so the
    suffix is checked before a collision is looked for, and a disallowed
    suffix is rejected also when a file of that name exists. *)
Theorem save_strips_directories_and_checks_suffix_first
  (fs : files) (clock : Z) (file : UploadFile) :
  no_slash (filename (stripped file))
  /\ (forall dir base : string,
        no_slash base -> filename file = dir ++ "/" ++ base ->
        filename (stripped file) = base)
  /\ save_and_validate_file fs clock file
     = save_and_validate_file fs clock (stripped file)
  /\ (~ In (checked_suffix file) ALLOWED_SUFFIXES ->
      save_and_validate_file fs clock file
      = raise (HTTPException 400 "Unsupported file type")).
Proof.
  repeat split.
  - apply basename_no_slash.
  - intros dir base Hb Hf. simpl. rewrite Hf. now apply basename_strips.
  - apply save_stripped.
  - apply save_rejects.
Qed.

(** A disallowed suffix is rejected although [uploads/notes.txt] exists. *)
Lemma save_strips_directories_and_checks_suffix_first_witness :
  path_exists (<["uploads/notes.txt" := []]> ∅) "uploads/notes.txt" = true
  /\ filename (stripped traversal_txt) = "notes.txt"
  /\ save_and_validate_file (<["uploads/notes.txt" := []]> ∅) 0 traversal_txt
     = raise (HTTPException 400 "Unsupported file type").
Proof.
  split; [reflexivity|]. split.
  - apply (proj1 (proj2 (save_strips_directories_and_checks_suffix_first
                           ∅ 0 traversal_txt)) "../../etc" "notes.txt");
      reflexivity.
  - apply (proj2 (proj2 (proj2 (save_strips_directories_and_checks_suffix_first
                                  (<["uploads/notes.txt" := []]> ∅) 0
                                  traversal_txt)))).
    vm_compute. intuition discriminate.
Defined.

(** C10.  The check of the suffix is case-sensitive.  A filename whose suffix
    differs from an allowed one only in the case of its letters, a filename
    whose name has no suffix, and in particular a filename with no dot are
    all rejected with the 400 "Unsupported file type". *)
Theorem save_suffix_check_is_case_sensitive
  (fs : files) (clock : Z) (file : UploadFile) :
  (exists allowed : string,
      In allowed ALLOWED_SUFFIXES
      /\ checked_suffix file <> allowed
      /\ lower (checked_suffix file) = lower allowed)
  \/ checked_suffix file = ""
  \/ contains "." (filename file) = false ->
  save_and_validate_file fs clock file
  = raise (HTTPException 400 "Unsupported file type").
Proof.
  intros H. apply save_rejects. intros Hin.
  destruct H as [(allowed & Ha & Hne & Hl) | [He | Hd]].
  - apply Hne. rewrite <- (lower_allowed _ Hin), <- (lower_allowed _ Ha).
    exact Hl.
  - rewrite He in Hin. vm_compute in Hin. intuition discriminate.
  - rewrite (checked_suffix_without_dot _ Hd) in Hin.
    vm_compute in Hin. intuition discriminate.
Qed.

Lemma save_suffix_check_is_case_sensitive_witness :
  checked_suffix upper_csv = ".CSV"
  /\ save_and_validate_file ∅ 0 upper_csv
     = raise (HTTPException 400 "Unsupported file type").
Proof.
  split; [reflexivity|].
  apply (save_suffix_check_is_case_sensitive ∅ 0 upper_csv).
  left. exists ".csv". split; [simpl; tauto|].
  split; [discriminate | reflexivity].
Defined.

Example save_without_extension :
  save_and_validate_file ∅ 0
    {| filename := "README"; content_type := None; body := [] |}
  = raise (HTTPException 400 "Unsupported file type").
Proof. reflexivity. Qed.

End SaveSpec.

Module CollisionSpec.
Import Py PyFacts FileUtils Notions Samples FileUtilsFacts SaveSpec.

(** On a collision the file goes under [stem_<unixtime>suffix]. *)
Lemma save_collision_is_renamed (fs : files) (clock : Z) (file : UploadFile) :
  In (checked_suffix file) ALLOWED_SUFFIXES ->
  let target := in_upload_dir (basename (filename file)) in
  path_exists fs target = true ->
  let renamed := in_upload_dir (stamped_name target (unix_time clock)) in
  save_and_validate_file fs clock file
  = ret (renamed, <[renamed := body file]> fs).
Proof.
  intros Hin target Hex renamed.
  rewrite (save_accepts fs clock file Hin). fold target.
  now rewrite Hex.
Qed.

Lemma save_free_name_is_kept (fs : files) (clock : Z) (file : UploadFile) :
  In (checked_suffix file) ALLOWED_SUFFIXES ->
  let target := in_upload_dir (basename (filename file)) in
  path_exists fs target = false ->
  save_and_validate_file fs clock file
  = ret (target, <[target := body file]> fs).
Proof.
  intros Hin target Hex.
  rewrite (save_accepts fs clock file Hin). fold target.
  now rewrite Hex.
Qed.

Lemma stem_suffix (path : string) : stem path ++ suffix path = path_name path.
Proof.
  unfold stem, suffix. destruct (suffix_index (path_name path)) as [i|].
  - unfold take_str, drop_str. apply chars_inj.
    rewrite chars_app, !chars_str. apply firstn_skipn.
  - apply chars_inj. rewrite chars_app. simpl. apply app_nil_r.
Qed.

Lemma stamped_name_longer (path : string) (timestamp : Z) :
  (len (path_name path) < len (stamped_name path timestamp))%nat.
Proof.
  unfold stamped_name. rewrite <- stem_suffix, !len_app.
  change (len "_") with 1%nat. lia.
Qed.

Lemma allowed_suffix_plain_target (b : string) :
  no_slash b ->
  In (suffix (in_upload_dir b)) ALLOWED_SUFFIXES ->
  in_upload_dir b = UPLOAD_DIR ++ "/" ++ b /\ path_name (in_upload_dir b) = b.
Proof.
  intros Hb Hin. rewrite path_name_in_upload_dir by assumption.
  unfold in_upload_dir in *.
  destruct (String.eqb b "" || String.eqb b "."); [|now split].
  vm_compute in Hin. intuition discriminate.
Qed.

Lemma len_in_upload_dir (x : string) :
  (len (in_upload_dir x) <= 8 + len x)%nat
  /\ (String.eqb x "" || String.eqb x "." = false ->
      len (in_upload_dir x) = 8 + len x)%nat.
Proof.
  unfold in_upload_dir. destruct (String.eqb x "" || String.eqb x ".") eqn:E.
  - split; [|discriminate]. change (len UPLOAD_DIR) with 7%nat. lia.
  - rewrite !len_app. change (len UPLOAD_DIR) with 7%nat.
    change (len "/") with 1%nat. split; [lia | intros _; lia].
Qed.

Lemma contains_app c (a b : string) :
  contains c (a ++ b) = contains c a || contains c b.
Proof. unfold contains. rewrite chars_app. apply existsb_app. Qed.

Lemma stamped_name_not_dot (path : string) (timestamp : Z) :
  String.eqb (stamped_name path timestamp) ""
  || String.eqb (stamped_name path timestamp) "." = false.
Proof.
  assert (H : contains "_" (stamped_name path timestamp) = true).
  { unfold stamped_name. rewrite !contains_app.
    change (contains "_" "_") with true. now rewrite orb_true_r. }
  apply orb_false_iff. split; apply String.eqb_neq; intros E;
    rewrite E in H; discriminate.
Qed.

(** Where the second of two uploads of one name does not touch the first:
    the name was free when the first arrived. *)
Lemma second_upload_of_a_free_name (fs : files) (clock1 clock2 : Z)
  (first second : UploadFile) :
  filename first = filename second ->
  In (checked_suffix first) ALLOWED_SUFFIXES ->
  let target := in_upload_dir (basename (filename first)) in
  path_exists fs target = false ->
  exists renamed fs1 fs2,
    save_and_validate_file fs clock1 first = ret (target, fs1)
    /\ save_and_validate_file fs1 clock2 second = ret (renamed, fs2)
    /\ renamed = in_upload_dir (stamped_name target (unix_time clock2))
    /\ renamed <> target
    /\ fs2 !! target = Some (body first)
    /\ fs2 !! renamed = Some (body second).
Proof.
  intros Hname Hin target Hfree.
  set (renamed := in_upload_dir (stamped_name target (unix_time clock2))).
  set (fs1 := <[target := body first]> fs).
  exists renamed, fs1, (<[renamed := body second]> fs1).
  assert (Hin2 : In (checked_suffix second) ALLOWED_SUFFIXES).
  { unfold checked_suffix in *. now rewrite <- Hname. }
  assert (Hne : renamed <> target).
  { destruct (allowed_suffix_plain_target (basename (filename first))
                (basename_no_slash _) Hin) as [_ Hn].
    fold target in Hn.
    pose proof (stamped_name_longer target (unix_time clock2)) as Hl.
    intros E.
    pose proof (proj2 (len_in_upload_dir _)
                  (stamped_name_not_dot target (unix_time clock2))) as H1.
    fold renamed in H1. rewrite E in H1.
    pose proof (proj1 (len_in_upload_dir (basename (filename first)))) as H2.
    fold target in H2. rewrite Hn in Hl. lia. }
  repeat split.
  - now apply save_free_name_is_kept.
  - rewrite (save_collision_is_renamed fs1 clock2 second Hin2).
    + now rewrite <- Hname.
    + rewrite <- Hname. fold target. unfold path_exists, fs1.
      apply bool_decide_eq_true. rewrite lookup_insert_eq. eauto.
  - exact Hne.
  - unfold fs1. rewrite lookup_insert_ne by exact Hne.
    apply lookup_insert_eq.
  - apply lookup_insert_eq.
Qed.

(** Where it does: the name was taken already, and both uploads arrive
    within one second.  They are given the same name, and the second
    replaces the first. *)
Lemma collisions_within_a_second_share_a_name (fs : files) (clock1 clock2 : Z)
  (first second : UploadFile) :
  filename first = filename second ->
  In (checked_suffix first) ALLOWED_SUFFIXES ->
  let target := in_upload_dir (basename (filename first)) in
  path_exists fs target = true ->
  unix_time clock1 = unix_time clock2 ->
  exists renamed fs1 fs2,
    save_and_validate_file fs clock1 first = ret (renamed, fs1)
    /\ save_and_validate_file fs1 clock2 second = ret (renamed, fs2)
    /\ fs1 !! renamed = Some (body first)
    /\ fs2 !! renamed = Some (body second).
Proof.
  intros Hname Hin target Hex Hsec.
  set (renamed := in_upload_dir (stamped_name target (unix_time clock1))).
  set (fs1 := <[renamed := body first]> fs).
  exists renamed, fs1, (<[renamed := body second]> fs1).
  assert (Hin2 : In (checked_suffix second) ALLOWED_SUFFIXES).
  { unfold checked_suffix in *. now rewrite <- Hname. }
  assert (Hex1 : path_exists fs1 target = true).
  { unfold path_exists in *. apply bool_decide_eq_true.
    apply bool_decide_eq_true in Hex. unfold fs1.
    destruct (decide (renamed = target)) as [E|E].
    - rewrite E, lookup_insert_eq. eauto.
    - now rewrite lookup_insert_ne. }
  repeat split.
  - now apply save_collision_is_renamed.
  - rewrite (save_collision_is_renamed fs1 clock2 second Hin2);
      rewrite <- Hname; fold target; [|exact Hex1].
    rewrite <- Hsec. reflexivity.
  - apply lookup_insert_eq.
  - apply lookup_insert_eq.
Qed.

(** C6, where the code departs from it.  [uploads/data.csv] exists and two
    uploads named [data.csv] arrive within one second, 0.2 s and 0.7 s after
    1700000000.  Both are given the name [data_1700000000.csv]: the second
    is written over the first, whose bytes are lost. *)
Theorem same_second_collisions_overwrite :
  save_and_validate_file disk0 1700000000200000 (data_csv [Byte.x01])
  = ret ("uploads/data_1700000000.csv", disk1)
  /\ save_and_validate_file disk1 1700000000700000 (data_csv [Byte.x02])
     = ret ("uploads/data_1700000000.csv", disk2)
  /\ disk1 !! "uploads/data_1700000000.csv" = Some [Byte.x01]
  /\ disk2 !! "uploads/data_1700000000.csv" = Some [Byte.x02].
Proof. repeat split; vm_compute; reflexivity. Qed.

End CollisionSpec.

(** ** Regular expressions: the matcher decides the language *)

Module RegexFacts.
Import Regex Notions.

Lemma matches_nothing l : ~ Matches Nothing l.
Proof. intros H. inversion H. Qed.

Lemma matches_eps l : Matches Eps l <-> l = [].
Proof. split; [intros H; now inversion H | intros ->; constructor]. Qed.

Lemma matches_class p l :
  Matches (Class p) l <-> exists c, l = [c] /\ p c = true.
Proof.
  split.
  - intros H. inversion H; subst. eauto.
  - intros (c & -> & Hc). now constructor.
Qed.

Lemma matches_seq r1 r2 l :
  Matches (Seq r1 r2) l
  <-> exists l1 l2, l = (l1 ++ l2)%list /\ Matches r1 l1 /\ Matches r2 l2.
Proof.
  split.
  - intros H. inversion H; subst. eauto.
  - intros (l1 & l2 & -> & H1 & H2). now constructor.
Qed.

Lemma matches_alt r1 r2 l :
  Matches (Alt r1 r2) l <-> Matches r1 l \/ Matches r2 l.
Proof.
  split.
  - intros H. inversion H; subst; auto.
  - intros [H | H]; [now apply MAltL | now apply MAltR].
Qed.

Lemma matches_star_cons_gen sr w :
  Matches sr w ->
  forall r c l, sr = Star r -> w = c :: l ->
  exists l1 l2,
    l = (l1 ++ l2)%list /\ Matches r (c :: l1) /\ Matches (Star r) l2.
Proof.
  induction 1 as [| | | | | |r' l1 l2 H1 _ H2 IH2];
    intros r0 c0 l0 Esr Ew; try discriminate.
  injection Esr as ->.
  destruct l1 as [|x l1]; simpl in Ew.
  - now apply IH2.
  - injection Ew as -> <-. eauto.
Qed.

(** A non-empty word of [Star r] starts with a non-empty word of [r]. *)
Lemma matches_star_cons r c l :
  Matches (Star r) (c :: l) ->
  exists l1 l2,
    l = (l1 ++ l2)%list /\ Matches r (c :: l1) /\ Matches (Star r) l2.
Proof. intros H. now apply (matches_star_cons_gen _ _ H). Qed.

Lemma nullable_spec r : nullable r = true <-> Matches r [].
Proof.
  induction r as [| |p|r1 IH1 r2 IH2|r1 IH1 r2 IH2|r IH]; simpl.
  - split; [discriminate | intros H; inversion H].
  - split; [constructor | reflexivity].
  - split; [discriminate | intros H; inversion H].
  - rewrite andb_true_iff, IH1, IH2, matches_seq. split.
    + intros [H1 H2]. exists [], []. auto.
    + intros (l1 & l2 & E & H1 & H2). symmetry in E.
      apply app_eq_nil in E as [-> ->]. auto.
  - rewrite orb_true_iff, IH1, IH2, matches_alt. reflexivity.
  - split; [constructor | reflexivity].
Qed.

Lemma deriv_spec r c l : Matches (deriv c r) l <-> Matches r (c :: l).
Proof.
  revert l. induction r as [| |p|r1 IH1 r2 IH2|r1 IH1 r2 IH2|r IH];
    intros l; simpl.
  - split; intros H; inversion H.
  - split; intros H; inversion H.
  - rewrite matches_class. destruct (p c) eqn:Hp.
    + rewrite matches_eps. split.
      * intros ->. eauto.
      * intros (x & E & _). now injection E.
    + split; [intros H; inversion H|].
      intros (x & E & Hx). injection E as -> _. congruence.
  - assert (Hcons : Matches (Seq (deriv c r1) r2) l
                    <-> exists l1 l2, l = (l1 ++ l2)%list
                                      /\ Matches r1 (c :: l1) /\ Matches r2 l2).
    { rewrite matches_seq. split; intros (l1 & l2 & E & H1 & H2);
        exists l1, l2; (split; [exact E|]); split; try assumption;
        now apply IH1. }
    rewrite (matches_seq r1 r2 (c :: l)).
    destruct (nullable r1) eqn:Hn.
    + rewrite matches_alt, Hcons, IH2. split.
      * intros [(l1 & l2 & -> & H1 & H2) | H2].
        -- exists (c :: l1), l2. auto.
        -- exists [], (c :: l). repeat split; [|assumption].
           now apply nullable_spec.
      * intros (l1 & l2 & E & H1 & H2). destruct l1 as [|x l1]; simpl in E.
        -- right. now rewrite E.
        -- injection E as <- ->. left. eauto.
    + rewrite Hcons. split.
      * intros (l1 & l2 & -> & H1 & H2). exists (c :: l1), l2. auto.
      * intros (l1 & l2 & E & H1 & H2). destruct l1 as [|x l1]; simpl in E.
        -- apply nullable_spec in H1. congruence.
        -- injection E as <- ->. eauto.
  - rewrite !matches_alt, IH1, IH2. reflexivity.
  - rewrite matches_seq. split.
    + intros (l1 & l2 & -> & H1 & H2). apply IH in H1.
      change (c :: l1 ++ l2)%list with ((c :: l1) ++ l2)%list.
      now constructor.
    + intros H. apply matches_star_cons in H as (l1 & l2 & -> & H1 & H2).
      exists l1, l2. repeat split; [now apply IH | assumption].
Qed.

(** The derivative matcher accepts exactly the words of the expression. *)
Theorem fullmatch_spec r l : fullmatch r l = true <-> Matches r l.
Proof.
  revert r. induction l as [|c l IH]; intros r; simpl.
  - apply nullable_spec.
  - rewrite IH. apply deriv_spec.
Qed.

Lemma matches_star_any l : Matches (Star AnyChr) l.
Proof.
  induction l as [|c l IH]; [constructor|].
  change (c :: l) with ([c] ++ l)%list. constructor; [|assumption].
  now constructor.
Qed.

Theorem is_match_spec r s : is_match r s = true <-> found r s.
Proof.
  unfold is_match, found. rewrite fullmatch_spec, matches_seq. split.
  - intros (pre & rest & E & _ & H). apply matches_seq in H
      as (m & post & -> & Hm & _). eauto.
  - intros (pre & m & post & E & Hm). exists pre, (m ++ post)%list.
    split; [assumption|]. split; [apply matches_star_any|].
    constructor; [assumption | apply matches_star_any].
Qed.

Lemma matches_star_class p l :
  Matches (Star (Class p)) l <-> forallb p l = true.
Proof.
  split.
  - intros H. remember (Star (Class p)) as sr eqn:E.
    induction H as [| | | | | |r l1 l2 H1 _ H2 IH2]; try discriminate.
    + reflexivity.
    + injection E as ->. apply matches_class in H1 as (c & -> & Hc).
      simpl. rewrite Hc. now apply IH2.
  - induction l as [|c l IH]; simpl; intros H; [constructor|].
    apply andb_true_iff in H as [Hc Hl].
    change (c :: l) with ([c] ++ l)%list.
    constructor; [now constructor | now apply IH].
Qed.

Lemma matches_plus_class p l :
  Matches (Plus (Class p)) l <-> l <> [] /\ forallb p l = true.
Proof.
  unfold Plus. rewrite matches_seq. split.
  - intros (l1 & l2 & -> & H1 & H2).
    apply matches_class in H1 as (c & -> & Hc).
    apply matches_star_class in H2. simpl. rewrite Hc, H2. now split.
  - intros [Hne H]. destruct l as [|c l]; [contradiction|].
    simpl in H. apply andb_true_iff in H as [Hc Hl].
    exists [c], l. repeat split; [now constructor|].
    now apply matches_star_class.
Qed.

End RegexFacts.

(** ** The record schema *)

Module ValidationFacts.
Import Py PyFacts Regex RegexFacts Validation Notions Samples.

Lemma matches_chr c l : Matches (Chr c) l <-> l = [c].
Proof.
  unfold Chr. rewrite matches_class. split.
  - intros (x & -> & E). apply Ascii.eqb_eq in E. now subst.
  - intros ->. exists c. split; [reflexivity | apply Ascii.eqb_refl].
Qed.

(** The words of the pattern of the [email] field. *)
Lemma email_pattern_shape m : Matches EMAIL_PATTERN m <-> address_shape m.
Proof.
  unfold EMAIL_PATTERN, address_shape, NotChr, no_at. split.
  - intros H.
    apply matches_seq in H as (a & r1 & -> & Ha & H).
    apply matches_seq in H as (at1 & r2 & -> & Hat & H).
    apply matches_seq in H as (u & r3 & -> & Hu & H).
    apply matches_seq in H as (dot & v & -> & Hdot & Hv).
    apply matches_chr in Hat as ->. apply matches_chr in Hdot as ->.
    apply matches_plus_class in Ha as [Ha1 Ha2].
    apply matches_plus_class in Hu as [Hu1 Hu2].
    apply matches_plus_class in Hv as [Hv1 Hv2].
    exists a, u, v. repeat split; assumption.
  - intros (a & u & v & -> & Ha & Hu & Hv & Na & Nu & Nv).
    apply matches_seq. exists a, ("@"%char :: u ++ "."%char :: v)%list.
    split; [reflexivity|]. split; [now apply matches_plus_class|].
    apply matches_seq. exists ["@"%char], (u ++ "."%char :: v)%list.
    split; [reflexivity|]. split; [now apply matches_chr|].
    apply matches_seq. exists u, ("."%char :: v)%list.
    split; [reflexivity|]. split; [now apply matches_plus_class|].
    apply matches_seq. exists ["."%char], v.
    split; [reflexivity|]. split; [now apply matches_chr|].
    now apply matches_plus_class.
Qed.

Lemma validate_email_loc v e :
  validate_email v = inr e -> exists type, e = FieldError "email" type.
Proof.
  unfold validate_email. destruct v as [[| | | |s]|]; intros H;
    try (injection H as <-; eauto).
  destruct (is_match EMAIL_PATTERN s); [discriminate|].
  injection H as <-. eauto.
Qed.

Lemma validate_email_ok v s :
  validate_email v = inl s <-> v = Some (VStr s) /\ found EMAIL_PATTERN s.
Proof.
  unfold validate_email. split.
  - destruct v as [[| | | |s']|]; intros H; try discriminate.
    destruct (is_match EMAIL_PATTERN s') eqn:E; [|discriminate].
    injection H as ->. split; [reflexivity | now apply is_match_spec].
  - intros [-> H]. apply is_match_spec in H. now rewrite H.
Qed.

Lemma init_ok data n e a :
  validate_name (data !! "name") = inl n ->
  validate_email (data !! "email") = inl e ->
  validate_age (data !! "age") = inl a ->
  init data = inl {| name := n; email := e; age := a |}.
Proof. intros Hn He Ha. unfold init. now rewrite Hn, He, Ha. Qed.

Lemma init_errors data :
  (exists n e a,
      validate_name (data !! "name") = inl n
      /\ validate_email (data !! "email") = inl e
      /\ validate_age (data !! "age") = inl a
      /\ init data = inl {| name := n; email := e; age := a |})
  \/ init data
     = inr (errors_of (validate_name (data !! "name"))
            ++ errors_of (validate_email (data !! "email"))
            ++ errors_of (validate_age (data !! "age")))%list
     /\ (errors_of (validate_name (data !! "name"))
         ++ errors_of (validate_email (data !! "email"))
         ++ errors_of (validate_age (data !! "age")))%list <> [].
Proof.
  unfold init.
  destruct (validate_name (data !! "name")) as [n|en];
    destruct (validate_email (data !! "email")) as [e|ee];
    destruct (validate_age (data !! "age")) as [a|ea];
    try (right; split; [reflexivity | discriminate]).
  left. exists n, e, a. auto.
Qed.



End ValidationFacts.

Module RecordSpec.
Import Py PyFacts Regex RegexFacts Validation Notions Samples ValidationFacts.

Lemma remove_spaces_isalpha (l : list ascii) :
  forallb (fun c => isalpha_char c || Ascii.eqb c " ") l = true ->
  forallb isalpha_char
    (List.filter (fun x => negb (Ascii.eqb x " ")) l) = true.
Proof.
  induction l as [|c l IH]; simpl; intros H; [reflexivity|].
  apply andb_true_iff in H as [Hc Hl].
  destruct (Ascii.eqb c " ") eqn:E; simpl; [now apply IH|].
  rewrite orb_false_r in Hc. rewrite Hc. now apply IH.
Qed.

Lemma remove_spaces_keeps_letter (l : list ascii) :
  existsb isalpha_char l = true ->
  List.filter (fun x => negb (Ascii.eqb x " ")) l <> [].
Proof.
  induction l as [|c l IH]; simpl; intros H; [discriminate|].
  destruct (Ascii.eqb c " ") eqn:E; simpl; [|discriminate].
  apply Ascii.eqb_eq in E. subst c. simpl in H. now apply IH.
Qed.

Lemma validate_name_ok (n : string) :
  letters_and_spaces n -> has_letter n ->
  validate_name (Some (VStr n)) = inl n.
Proof.
  unfold letters_and_spaces, has_letter, validate_name. intros Hall Hone.
  assert (Hlen : (len n <? 1)%nat = false).
  { unfold len. destruct (chars n); [discriminate | reflexivity]. }
  rewrite Hlen. unfold name_must_be_alpha, isalpha, remove_char.
  rewrite chars_str.
  pose proof (remove_spaces_keeps_letter _ Hone) as Hne.
  pose proof (remove_spaces_isalpha _ Hall) as Hal.
  destruct (List.filter _ (chars n)); [contradiction|].
  now rewrite Hal.
Qed.

Lemma dict_lookup_other (m : OnboardingDataModel) (k : string) :
  k <> "name" -> k <> "email" -> k <> "age" -> dict m !! k = None.
Proof.
  intros H1 H2 H3. unfold dict.
  rewrite !lookup_insert_ne by congruence. apply lookup_empty.
Qed.

(** C8 as stated fails for a name made of spaces only: it is non-empty and
    has nothing but letters and spaces, and the validator rejects it, since
    nothing is left of it once the spaces are removed. *)
Lemma blank_name_fails_validation :
  ~ (forall (n e : string) (a : Z),
        n <> "" -> letters_and_spaces n ->
        found EMAIL_PATTERN e -> 0 < a ->
        validate_onboarding_data (record3 n e (VInt a))
        = ret (record3 n e (VInt a))).
Proof.
  intros H. specialize (H " " "a@b.c" 1).
  assert (E : validate_onboarding_data (record3 " " "a@b.c" (VInt 1))
              = raise (ValidationValueError [FieldError "name" "value_error"]))
    by reflexivity.
  rewrite E in H. discriminate H.
  - discriminate.
  - reflexivity.
  - now apply is_match_spec.
  - lia.
Qed.

(** C8, amended.  A record with exactly the entries [name], [email] and
    [age], whose name has at least one letter and otherwise only letters and
    spaces, whose email is matched by the pattern and whose age is an integer
    above 0, passes validation and comes back unchanged. *)
Theorem valid_record_is_returned_unchanged
  (data : pydict) (n e : string) (a : Z) :
  dom data = ({[ "name"; "email"; "age" ]} : gset string) ->
  data !! "name" = Some (VStr n) ->
  letters_and_spaces n -> has_letter n ->
  data !! "email" = Some (VStr e) -> found EMAIL_PATTERN e ->
  data !! "age" = Some (VInt a) -> 0 < a ->
  validate_onboarding_data data = ret data.
Proof.
  intros Hdom Hn Hall Hone He Hfound Ha Hpos.
  unfold validate_onboarding_data.
  rewrite (init_ok data n e a).
  - unfold ret. f_equal. apply map_eq. intros k.
    destruct (decide (k = "name")) as [->|N1];
      [unfold dict; simpl; now rewrite lookup_insert_eq|].
    destruct (decide (k = "email")) as [->|N2];
      [unfold dict; simpl;
       rewrite lookup_insert_ne by discriminate;
       now rewrite lookup_insert_eq|].
    destruct (decide (k = "age")) as [->|N3];
      [unfold dict; simpl;
       rewrite !lookup_insert_ne by discriminate;
       now rewrite lookup_insert_eq|].
    rewrite dict_lookup_other by assumption. symmetry.
    apply not_elem_of_dom. rewrite Hdom. set_solver.
  - rewrite Hn. now apply validate_name_ok.
  - rewrite He. apply validate_email_ok. auto.
  - rewrite Ha. simpl. apply Z.ltb_lt in Hpos. now rewrite Hpos.
Qed.

Lemma valid_record_is_returned_unchanged_witness :
  validate_onboarding_data (record3 "Jane Doe" "jane@x.com" (VInt 30))
  = ret (record3 "Jane Doe" "jane@x.com" (VInt 30)).
Proof.
  apply (valid_record_is_returned_unchanged
           (record3 "Jane Doe" "jane@x.com" (VInt 30))
           "Jane Doe" "jane@x.com" 30).
  - unfold record3. rewrite !dom_insert_L, dom_empty_L. set_solver.
  - reflexivity.
  - reflexivity.
  - reflexivity.
  - reflexivity.
  - apply is_match_spec. reflexivity.
  - reflexivity.
  - lia.
Defined.

End RecordSpec.

Module AgeSpec.
Import Py PyFacts Validation Notions Samples ValidationFacts.

Lemma decimal_not_space c : isdecimal c = true -> isspace c = false.
Proof. destruct c as [[] [] [] [] [] [] [] []]; now vm_compute. Qed.

Lemma lstrip_decimal l : forallb isdecimal l = true -> lstrip_chars l = l.
Proof.
  destruct l as [|c l]; simpl; [reflexivity|]. intros H.
  apply andb_true_iff in H as [Hc _].
  now rewrite (decimal_not_space c Hc).
Qed.

Lemma forallb_rev (A : Type) (p : A -> bool) (l : list A) :
  forallb p (rev l) = forallb p l.
Proof.
  induction l as [|x l IH]; simpl; [reflexivity|].
  rewrite forallb_app, IH. simpl. rewrite andb_true_r. apply andb_comm.
Qed.

Lemma all_decimal_forallb l : all_decimal l = true -> forallb isdecimal l = true.
Proof. destruct l; [discriminate | auto]. Qed.

(** A run of digits has no whitespace to strip. *)
Lemma strip_decimal (s : string) :
  all_decimal (chars s) = true -> strip s = s.
Proof.
  intros H. apply all_decimal_forallb in H. unfold strip.
  rewrite (lstrip_decimal _ H).
  rewrite lstrip_decimal by now rewrite forallb_rev.
  now rewrite rev_involutive, str_chars.
Qed.

Lemma signed_decimal_digits (s : string) :
  all_decimal (chars s) = true ->
  signed_decimal s = Some (digits_value (chars s)).
Proof.
  intros H. unfold signed_decimal. rewrite (strip_decimal s H).
  destruct (chars s) as [|c l] eqn:E; [discriminate|].
  assert (Hc : isdecimal c = true).
  { simpl in H. now apply andb_true_iff in H as [Hc _]. }
  destruct c as [[] [] [] [] [] [] [] []]; try discriminate Hc;
    now rewrite H.
Qed.



End AgeSpec.

(** ** The PDF extractor *)

Module PdfSpec.
Import Py PyFacts Regex RegexFacts Upload Notions Samples.

(** With the names the module binds, no line yields a record: the pattern
    test needs the name [re], which the module never imports. *)
Lemma pdf_line_yields_nothing (line : string) (r : option pydict) :
  pdf_line MODULE_GLOBALS line = ret r -> r = None.
Proof.
  unfold pdf_line.
  destruct (_ || _); [intros H; now injection H|].
  destruct (first_index _ _ _) as [email_idx|]; [|intros H; now injection H].
  destruct (_ <? _)%nat; [|intros H; now injection H].
  destruct (nth_error _ email_idx); [|discriminate].
  destruct (nth_error _ (email_idx + 1)); [|discriminate].
  discriminate.
Qed.

Lemma pdf_lines_yield_nothing (lines : list string) (acc out : list pydict) :
  pdf_lines MODULE_GLOBALS lines acc = ret out -> out = acc.
Proof.
  revert acc. induction lines as [|line rest IH]; intros acc; simpl.
  - intros H. now injection H.
  - destruct (pdf_line MODULE_GLOBALS line) as [r|e] eqn:E; [|discriminate].
    apply pdf_line_yields_nothing in E. subst r. simpl. apply IH.
Qed.

Lemma pdf_pages_yield_nothing (pages : list string) (acc out : list pydict) :
  pdf_pages MODULE_GLOBALS pages acc = ret out -> out = acc.
Proof.
  revert acc. induction pages as [|text rest IH]; intros acc; simpl.
  - intros H. now injection H.
  - destruct (String.eqb text ""); [apply IH|].
    destruct (pdf_lines MODULE_GLOBALS _ acc) as [acc'|e] eqn:E;
      [|discriminate].
    apply pdf_lines_yield_nothing in E. subst acc'. simpl. apply IH.
Qed.

(** Hence [handle_pdf] fails on every document. *)
Lemma handle_pdf_never_returns (pdf : result (list string)) :
  exists detail,
    handle_pdf MODULE_GLOBALS pdf = raise (HTTPException 400 detail).
Proof.
  unfold handle_pdf. destruct pdf as [pages|e]; simpl; [|eauto].
  destruct (pdf_pages MODULE_GLOBALS pages []) as [out|e] eqn:E; simpl;
    [|eauto].
  apply pdf_pages_yield_nothing in E. subst out. simpl. eauto.
Qed.

(** *** What the extractor computes once [re] is bound *)

Lemma flush_spaceless tok rest :
  spaceless tok ->
  Forall (fun t => spaceless (chars t)) rest ->
  Forall (fun t => spaceless (chars t)) (flush tok rest).
Proof.
  intros Htok Hrest. destruct tok as [|x tok]; [exact Hrest|].
  unfold flush. constructor; [|exact Hrest].
  unfold spaceless. now rewrite chars_str, AgeSpec.forallb_rev.
Qed.

Lemma split_go_spaceless tok l :
  spaceless tok -> Forall (fun t => spaceless (chars t)) (split_go tok l).
Proof.
  revert tok. induction l as [|c l IH]; intros tok Htok; simpl.
  - apply flush_spaceless; [exact Htok | constructor].
  - destruct (isspace c) eqn:Hc.
    + apply flush_spaceless; [exact Htok | now apply IH].
    + apply IH. unfold spaceless in *. simpl. now rewrite Hc.
Qed.

(** The tokens of a line hold no whitespace. *)
Lemma split_spaceless line t : In t (split line) -> spaceless (chars t).
Proof.
  intros H.
  pose proof (split_go_spaceless [] (chars line) eq_refl) as Hall.
  exact (proj1 (List.Forall_forall _ _) Hall t H).
Qed.

(** On a token, the pattern of the age asks for decimal digits only. *)
Lemma age_pattern_on_token l :
  spaceless l -> fullmatch AGE_PATTERN l = all_decimal l.
Proof.
  intros Hl. apply eq_true_iff_eq.
  rewrite fullmatch_spec. unfold AGE_PATTERN. rewrite matches_seq. split.
  - intros (l1 & l2 & -> & H1 & H2).
    apply matches_plus_class in H1 as [Hne Hd].
    apply matches_alt in H2 as [H2 | H2].
    + apply matches_eps in H2. subst l2. rewrite app_nil_r.
      destruct l1; [contradiction | exact Hd].
    + apply ValidationFacts.matches_chr in H2. subst l2.
      unfold spaceless in Hl. rewrite forallb_app in Hl.
      apply andb_true_iff in Hl as [_ Hl]. discriminate Hl.
  - intros H. exists l, []. split; [now rewrite app_nil_r|]. split.
    + apply matches_plus_class. split.
      * destruct l; [discriminate H | discriminate].
      * now apply AgeSpec.all_decimal_forallb.
    + apply matches_alt. left. constructor.
Qed.

Lemma pdf_line_with_re (globals : list string) (line : string) :
  lookup_global globals "re" = ret tt ->
  pdf_line globals line = ret (line_record line).
Proof.
  intros Hre. unfold pdf_line, line_record.
  rewrite (orb_comm (String.eqb (strip line) "")).
  destruct (_ || _); [reflexivity|].
  destruct (first_index (contains "@") 0%nat (split line)) as [i|];
    [|reflexivity].
  rewrite Nat.add_1_r.
  destruct (nth_error (split line) (S i)) as [age|] eqn:Hage.
  - assert (Hlt : (S i < List.length (split line))%nat).
    { apply nth_error_Some. congruence. }
    apply Nat.ltb_lt in Hlt. rewrite Hlt.
    destruct (nth_error (split line) i) as [email|] eqn:Hemail.
    + rewrite Hre. simpl.
      rewrite age_pattern_on_token
        by (apply (split_spaceless line), (nth_error_In _ _ Hage)).
      destruct (all_decimal (chars age)) eqn:Hd; [|reflexivity].
      unfold py_int. now rewrite (AgeSpec.signed_decimal_digits age Hd).
    + apply nth_error_None in Hemail. apply Nat.ltb_lt in Hlt. lia.
  - assert (Hge : (S i <? List.length (split line))%nat = false).
    { apply Nat.ltb_ge. now apply nth_error_None. }
    rewrite Hge. now destruct (nth_error (split line) i).
Qed.

Lemma pdf_lines_with_re (globals : list string) (lines : list string)
  (acc : list pydict) :
  lookup_global globals "re" = ret tt ->
  pdf_lines globals lines acc = ret (acc ++ omap line_record lines)%list.
Proof.
  intros Hre. revert acc. induction lines as [|line rest IH]; intros acc.
  - simpl. now rewrite app_nil_r.
  - simpl. rewrite (pdf_line_with_re globals line Hre). simpl.
    destruct (line_record line) as [d|].
    + rewrite IH. now rewrite <- app_assoc.
    + apply IH.
Qed.

Lemma pdf_pages_with_re (globals : list string) (pages : list string)
  (acc : list pydict) :
  lookup_global globals "re" = ret tt ->
  pdf_pages globals pages acc = ret (acc ++ document_records pages)%list.
Proof.
  intros Hre. revert acc. induction pages as [|text rest IH]; intros acc.
  - simpl. now rewrite app_nil_r.
  - simpl. destruct (String.eqb text "") eqn:E.
    + apply String.eqb_eq in E. subst text. apply IH.
    + rewrite (pdf_lines_with_re globals _ acc Hre). simpl.
      rewrite IH. unfold document_records. simpl.
      now rewrite app_assoc.
Qed.

(** With [re] bound the extractor returns the records of the document, and
    fails exactly when there is none. *)
Lemma handle_pdf_with_re (globals : list string) (pages : list string) :
  lookup_global globals "re" = ret tt ->
  handle_pdf globals (ret pages)
  = match document_records pages with
    | [] =>
        raise (HTTPException 400
                 "Error processing PDF file: 400: No valid data found in the PDF")
    | records => ret records
    end.
Proof.
  intros Hre. unfold handle_pdf. simpl.
  rewrite (pdf_pages_with_re globals pages [] Hre). simpl.
  now destruct (document_records pages).
Qed.

(** C2, where the code departs from it.  On a document whose only data line
    is [Jane Doe jane@x.com 30] the extractor does not return the record: the
    test of the age evaluates [re.match], the name [re] is not bound in the
    module, and the [NameError] leaves as the 400 of a failed extraction.
    With [re] bound, the same function returns the one record the line
    holds. *)
Theorem handle_pdf_fails_on_a_well_formed_line :
  handle_pdf MODULE_GLOBALS (ret [one_record_page])
  = raise (HTTPException 400
             "Error processing PDF file: name 're' is not defined")
  /\ handle_pdf ("re" :: MODULE_GLOBALS) (ret [one_record_page])
     = ret [record_of "Jane Doe" "jane@x.com" 30].
Proof. split; vm_compute; reflexivity. Qed.

End PdfSpec.

(** ** The upload endpoint *)

Module UploadSpec.
Import Validation ValidationFacts Upload Notions Samples.

Lemma invalid_has_first_error (d : pydict) :
  ~ valid d ->
  exists first rest,
    validate_onboarding_data d = raise (ValidationValueError (first :: rest)).
Proof.
  intros H. unfold valid, validate_onboarding_data in *.
  destruct (init_errors d) as [(n & e & a & _ & _ & _ & E) | [E Hne]].
  - exfalso. apply H. rewrite E. eauto.
  - rewrite E. destruct (_ ++ _)%list as [|first rest]; [contradiction|].
    eauto.
Qed.

Lemma log_error_posts e w : w_posts (snd (log_error e w)) = w_posts w.
Proof. reflexivity. Qed.

(** The loop as far as the first record that fails. *)
Lemma validate_entries_stops_at_first_invalid
  (before : list pydict) (bad : pydict) (after : list pydict)
  (first : field_error) (rest : list field_error) :
  Forall valid before ->
  validate_onboarding_data bad = raise (ValidationValueError (first :: rest)) ->
  forall (acc : list pydict) (w : world),
    validate_entries (before ++ bad :: after) acc w
    = (raise (HTTPException 400
                ("Validation error in " ++ loc_of first ++ " column data")),
       snd (log_error (ValidationValueError (first :: rest)) w)).
Proof.
  intros Hvalid Hbad. induction Hvalid as [|d before [v Hv] _ IH];
    intros acc w; simpl.
  - now rewrite Hbad.
  - rewrite Hv. apply IH.
Qed.

Lemma validate_entries_keeps_posts (l acc : list pydict) (w : world) :
  w_posts (snd (validate_entries l acc w)) = w_posts w
  /\ w_fs (snd (validate_entries l acc w)) = w_fs w.
Proof.
  revert acc w. induction l as [|d l IH]; intros acc w; simpl; [auto|].
  destruct (validate_onboarding_data d) as [v|e]; [apply IH|].
  destruct e; try (simpl; auto).
  destruct errors; simpl; auto.
Qed.

Section WithLibraries.

Variable env : libs.

Lemma save_keeps_posts (file : UploadFile) (w : world) :
  w_posts (snd (save file w)) = w_posts w.
Proof.
  unfold save.
  destruct (FileUtils.save_and_validate_file _ _ _) as [[p fs']|e];
    reflexivity.
Qed.

Lemma extract_keeps_world (file : UploadFile) (p : string) (w : world) :
  snd (extract env file p w) = w.
Proof.
  unfold extract, parse_with, mraise.
  repeat (match goal with
          | |- context [if ?b then _ else _] => destruct b
          end; try reflexivity).
Qed.

(** Whatever goes wrong inside the handler leaves it as a 500 whose detail
    embeds the text of the exception. *)
Lemma upload_file_failure (file : UploadFile) (w w' : world) (e : exn) :
  upload_file env file w = (inr e, w') ->
  exists cause : exn,
    e = HTTPException 500 ("An error occurred: " ++ str_exn cause).
Proof.
  unfold upload_file, mtry.
  destruct (mbind _ _ w) as [[r|cause] w1]; [discriminate|].
  simpl. intros H. injection H as <- _. eauto.
Qed.

End WithLibraries.

(** C1, where the code departs from it.  An unsupported file type, a failed
    extraction and a record that fails validation each raise a 400 inside the
    handler, and each reaches the caller as a 500: the handler's
    [except Exception] catches the 400 it has just raised and wraps it.  So
    does every other failure of the handler. *)
Theorem upload_failures_surface_as_500 :
  (forall (env : libs) (file : UploadFile) (w w' : world) (e : exn),
      upload_file env file w = (inr e, w') -> is_http 500 e)
  /\ fst (upload_file (csv_libs [jane]) (upload "notes.txt" "text/plain") start)
     = raise (HTTPException 500 "An error occurred: 400: Unsupported file type")
  /\ fst (upload_file (csv_libs [jane]) (upload "scan.pdf" "application/pdf")
            start)
     = raise (HTTPException 500
                "An error occurred: 400: Error processing PDF file: name 're' is not defined")
  /\ fst (upload_file (csv_libs [jane; john3]) (upload "data.csv" "text/csv")
            start)
     = raise (HTTPException 500
                "An error occurred: 400: Validation error in name column data").
Proof.
  split.
  - intros env file w w' e H.
    destruct (upload_file_failure env file w w' e H) as [cause ->].
    eexists. reflexivity.
  - repeat split; vm_compute; reflexivity.
Qed.

Lemma upload_failures_surface_as_500_witness :
  exists e,
    fst (upload_file (csv_libs [jane]) (upload "notes.txt" "text/plain") start)
    = inr e
    /\ is_http 500 e.
Proof.
  eexists. split; [vm_compute; reflexivity|].
  apply (proj1 upload_failures_surface_as_500 (csv_libs [jane])
           (upload "notes.txt" "text/plain") start
           (snd (upload_file (csv_libs [jane])
                   (upload "notes.txt" "text/plain") start))).
  vm_compute. reflexivity.
Defined.

Example upload_success :
  fst (upload_file (csv_libs [jane]) (upload "data.csv" "text/csv") start)
  = ret {| status := "Success"; message := SUCCESS_MESSAGE;
           saas_api_response := "{}" |}
  /\ w_posts (snd (upload_file (csv_libs [jane]) (upload "data.csv" "text/csv")
                     start))
     = [[jane]].
Proof. split; vm_compute; reflexivity. Qed.

End UploadSpec.

Module BatchSpec.
Import Validation ValidationFacts Upload Notions Samples UploadSpec.

(** C4 as stated fails in one respect: the error does not identify the
    record.  No function of the exception gives the index of the record that
    failed, since a batch whose record 0 fails and a batch whose record 1
    fails raise the same exception. *)
Lemma validation_error_does_not_identify_the_record :
  ~ (exists index_of : exn -> nat,
        forall (before : list pydict) (bad : pydict) (after : list pydict)
               (w w' : world) (e : exn),
          Forall valid before -> ~ valid bad ->
          validate_entries (before ++ bad :: after) [] w = (inr e, w') ->
          index_of e = List.length before).
Proof.
  intros [index_of H].
  assert (Hbad : ~ valid john3).
  { intros [v Hv]. vm_compute in Hv. discriminate. }
  assert (Hgood : valid jane).
  { eexists. vm_compute. reflexivity. }
  assert (Hnone : Forall valid []) by constructor.
  assert (Hone : Forall valid [jane]) by (constructor; assumption).
  pose proof (H [] john3 [] start _ _ Hnone Hbad eq_refl) as H0.
  pose proof (H [jane] john3 [] start _ _ Hone Hbad eq_refl) as H1.
  vm_compute in H0. vm_compute in H1. congruence.
Qed.

(** C4, amended.  When a record of the extracted batch is invalid, the
    records before it being valid, the validation loop raises the 400 whose
    detail names the first field of that record that failed; nothing of the
    batch goes through: the upload ends in an error and no request is made to
    the downstream API.  (The index of the record is not reported.) *)
Theorem invalid_record_aborts_the_batch
  (env : libs) (file : UploadFile) (w w1 : world) (file_path : string)
  (before : list pydict) (bad : pydict) (after : list pydict) :
  save file w = (inl file_path, w1) ->
  extract env file file_path w1 = (ret (before ++ bad :: after)%list, w1) ->
  Forall valid before -> ~ valid bad ->
  exists (first : field_error) (rest : list field_error),
    init bad = inr (first :: rest)
    /\ fst (validate_entries (before ++ bad :: after) [] w1)
       = raise (HTTPException 400
                  ("Validation error in " ++ loc_of first ++ " column data"))
    /\ (exists e, fst (upload_file env file w) = inr e)
    /\ w_posts (snd (upload_file env file w)) = w_posts w.
Proof.
  intros Hsave Hextract Hvalid Hbad.
  destruct (invalid_has_first_error bad Hbad) as (first & rest & Hraise).
  exists first, rest.
  pose proof (validate_entries_stops_at_first_invalid before bad after
                first rest Hvalid Hraise [] w1) as Hloop.
  split.
  { unfold validate_onboarding_data in Hraise.
    destruct (init bad); [discriminate | now injection Hraise as ->]. }
  split; [now rewrite Hloop|].
  assert (Hposts : w_posts w1 = w_posts w).
  { rewrite <- (save_keeps_posts file w). now rewrite Hsave. }
  unfold upload_file, mtry, mbind.
  unfold ret in Hextract.
  rewrite Hsave. cbv beta iota. rewrite Hextract. cbv beta iota.
  rewrite Hloop. simpl. split; [eauto | exact Hposts].
Qed.

Lemma invalid_record_aborts_the_batch_witness :
  exists (first : field_error) (rest : list field_error),
    init john3 = inr (first :: rest)
    /\ fst (validate_entries ([jane] ++ john3 :: [jane]) [] 
              (snd (save (upload "data.csv" "text/csv") start)))
       = raise (HTTPException 400
                  ("Validation error in " ++ loc_of first ++ " column data"))
    /\ (exists e,
           fst (upload_file (csv_libs [jane; john3; jane])
                  (upload "data.csv" "text/csv") start) = inr e)
    /\ w_posts (snd (upload_file (csv_libs [jane; john3; jane])
                       (upload "data.csv" "text/csv") start))
       = w_posts start.
Proof.
  apply (invalid_record_aborts_the_batch (csv_libs [jane; john3; jane])
           (upload "data.csv" "text/csv") start
           (snd (save (upload "data.csv" "text/csv") start))
           "uploads/data.csv" [jane] john3 [jane]).
  - vm_compute. reflexivity.
  - vm_compute. reflexivity.
  - constructor; [|constructor]. eexists. vm_compute. reflexivity.
  - intros [v Hv]. vm_compute in Hv. discriminate.
Defined.

End BatchSpec.

(** ** Tokens *)

Module AuthSpec.
Import Auth Notions Samples.

Ltac lookups :=
  repeat first
    [ rewrite lookup_insert_eq
    | rewrite lookup_insert_ne by discriminate
    | rewrite lookup_singleton_eq
    | rewrite lookup_singleton_ne by discriminate
    | rewrite lookup_empty ].

Lemma timegm_mono (a b : Z) : a <= b -> timegm a <= timegm b.
Proof. intros H. unfold timegm. apply Z.div_le_mono; lia. Qed.

Lemma timegm_add_minutes (utcnow m : Z) :
  timegm (utcnow + minutes m) = timegm utcnow + 60 * m.
Proof.
  unfold timegm, minutes.
  replace (utcnow + m * 60 * 1000000) with (utcnow + (60 * m) * 1000000) by lia.
  apply Z.div_add. lia.
Qed.

Lemma jwt_only_ret {A} (a : A) : jwt_only (ret a).
Proof. intros e H. discriminate. Qed.

Lemma jwt_only_raise {A} msg : jwt_only (@raise A (JWTError msg)).
Proof. intros e H. injection H as <-. eauto. Qed.

Lemma jwt_only_bind {A B} (r : result A) (k : A -> result B) :
  jwt_only r -> (forall a, jwt_only (k a)) -> jwt_only (bind r k).
Proof.
  intros Hr Hk e. destruct r as [a|e0]; simpl.
  - apply Hk.
  - intros H. injection H as <-. now apply Hr.
Qed.

Lemma jwt_only_integer_claim c k check :
  (forall z, jwt_only (check z)) -> jwt_only (integer_claim c k check).
Proof.
  intros H. unfold integer_claim.
  destruct (c !! k) as [v|]; [|apply jwt_only_ret].
  destruct (claim_int v); [apply H | apply jwt_only_raise].
Qed.

Lemma jwt_only_string_claim c k what : jwt_only (string_claim c k what).
Proof.
  unfold string_claim. destruct (c !! k) as [v|]; [|apply jwt_only_ret].
  destruct (is_str v); [apply jwt_only_ret | apply jwt_only_raise].
Qed.

Lemma jwt_only_unmatched_claim c k msg : jwt_only (unmatched_claim c k msg).
Proof.
  unfold unmatched_claim.
  destruct (c !! k); [apply jwt_only_raise | apply jwt_only_ret].
Qed.

Create HintDb jwt.

#[local] Hint Resolve jwt_only_ret jwt_only_raise jwt_only_string_claim
  jwt_only_unmatched_claim : jwt.

#[local] Hint Extern 2 (jwt_only (bind _ _)) =>
  apply jwt_only_bind; [|intros _] : jwt.

#[local] Hint Extern 2 (jwt_only (integer_claim _ _ _)) =>
  apply jwt_only_integer_claim; intros ? : jwt.

#[local] Hint Extern 2 (jwt_only (if ?b then _ else _)) => destruct b : jwt.

Lemma jwt_only_validate_claims c now : jwt_only (validate_claims c now).
Proof. unfold validate_claims. auto 20 with jwt. Qed.

Lemma jwt_decode_raises_jwt_error key t utcnow e :
  jwt_decode key t utcnow = inr e -> exists msg, e = JWTError msg.
Proof.
  revert e. change (jwt_only (jwt_decode key t utcnow)).
  unfold jwt_decode. destruct t as [|alg k p]; [apply jwt_only_raise|].
  destruct (negb _); [apply jwt_only_raise|].
  destruct (negb _); [apply jwt_only_raise|].
  destruct p as [| |c]; auto using jwt_only_validate_claims with jwt.
Qed.

(** [verify_token] answers with the subject or with the 401. *)
Lemma verify_token_cases key t utcnow :
  (exists v, verify_token key t utcnow = ret v)
  \/ rejected (verify_token key t utcnow).
Proof.
  unfold verify_token, rejected.
  destruct (jwt_decode key t utcnow) as [c|e] eqn:E.
  - destruct (c !! "sub") as [v|]; eauto.
  - destruct (jwt_decode_raises_jwt_error _ _ _ _ E) as [msg ->]. auto.
Qed.

Lemma bind_ret_inv {A B} (r : result A) (k : A -> result B) (b : B) :
  bind r k = ret b -> exists a, r = ret a /\ k a = ret b.
Proof. destruct r as [a|e]; simpl; [eauto | discriminate]. Qed.

(** A payload that passes the checks has not expired. *)
Lemma validate_claims_not_expired c now v exp :
  validate_claims c now = ret tt ->
  c !! "exp" = Some v -> claim_int v = Some exp -> (exp <? now) = false.
Proof.
  unfold validate_claims. intros H Hv He.
  apply bind_ret_inv in H as (u1 & _ & H).
  apply bind_ret_inv in H as (u2 & _ & H).
  apply bind_ret_inv in H as (u3 & H & _).
  unfold integer_claim in H. rewrite Hv, He in H.
  destruct (exp <? now); [discriminate | reflexivity].
Qed.

(** What [verify_token] accepts shows none of the four causes. *)
Lemma accepted_has_no_listed_cause key t utcnow v :
  verify_token key t utcnow = ret v -> listed_cause key t utcnow = false.
Proof.
  unfold verify_token, listed_cause.
  destruct (jwt_decode key t utcnow) as [c|e] eqn:E.
  - unfold jwt_decode in E. destruct t as [|alg k p]; [discriminate|].
    simpl. destruct (negb (String.eqb alg ALGORITHM)); [discriminate|].
    destruct (negb (String.eqb k key)); [discriminate|].
    destruct p as [| |c']; try discriminate.
    apply bind_ret_inv in E as ([] & Hv & Hc). injection Hc as ->.
    simpl. intros H.
    assert (Hsub : match c !! "sub" with None => true | Some _ => false end
                   = false).
    { destruct (c !! "sub") as [x|]; [reflexivity | discriminate]. }
    rewrite Hsub, orb_false_r.
    destruct (c !! "exp") as [x|] eqn:Hx; [|reflexivity].
    destruct (claim_int x) as [exp|] eqn:Hexp; [|reflexivity].
    now apply (validate_claims_not_expired c _ x exp).
  - destruct (jwt_decode_raises_jwt_error _ _ _ _ E) as [msg ->].
    discriminate.
Qed.

(** The outcome for a token with a plain payload. *)
Lemma verify_plain key alg k sub exp utcnow :
  verify_token key (Signed alg k (Claims (plain_claims sub exp))) utcnow
  = if negb (String.eqb alg ALGORITHM) || negb (String.eqb k key)
    then raise (UNAUTHORIZED "Invalid authentication credentials")
    else
      match exp, sub with
      | Some e, Some u =>
          if e <? timegm utcnow
          then raise (UNAUTHORIZED "Invalid authentication credentials")
          else ret (JStr u)
      | None, Some u => ret (JStr u)
      | _, None => raise (UNAUTHORIZED "Invalid authentication credentials")
      end.
Proof.
  unfold verify_token, jwt_decode.
  destruct (negb (String.eqb alg ALGORITHM)); [reflexivity|].
  destruct (negb (String.eqb k key)); [reflexivity|]. simpl.
  unfold validate_claims, integer_claim, string_claim, unmatched_claim,
    plain_claims.
  destruct exp as [e|], sub as [u|]; lookups; simpl;
    try destruct (e <? timegm utcnow); simpl; lookups; reflexivity.
Qed.

Lemma listed_cause_plain key alg k sub exp utcnow :
  listed_cause key (Signed alg k (Claims (plain_claims sub exp))) utcnow
  = negb (String.eqb alg ALGORITHM) || negb (String.eqb k key)
    || match exp with Some e => e <? timegm utcnow | None => false end
    || match sub with None => true | Some _ => false end.
Proof.
  unfold listed_cause, signature_invalid, payload_unparsable, expiry_past,
    sub_absent, plain_claims.
  rewrite orb_false_r.
  destruct exp as [e|], sub as [u|]; lookups; reflexivity.
Qed.

(** C7 as stated fails in its "exactly when": a token is also rejected for a
    registered claim the token library refuses.  At second 1000,
    [early_token] has a valid signature, a payload that parses, an expiry
    ahead and a subject, and it is rejected, being not yet valid. *)
Lemma rejected_without_a_listed_cause :
  ~ (forall (key : string) (t : token) (utcnow : Z),
        rejected (verify_token key t utcnow)
        <-> listed_cause key t utcnow = true).
Proof.
  intros H. specialize (H SECRET early_token 1000000000).
  assert (Hrej : rejected (verify_token SECRET early_token 1000000000))
    by reflexivity.
  apply H in Hrej. vm_compute in Hrej. discriminate.
Qed.

(** C7, amended.  (1) With no expiry given, the token expires 15 minutes
    after issuance.  (2) A login that succeeds issues a token for the user
    that expires 30 minutes after issuance.  (3) A token is rejected with the
    401 whenever its signature is invalid, its payload does not parse, its
    expiry is past or its subject is missing; for a payload that carries
    nothing but a subject and an expiry it is rejected in these cases only.
    (4) A token issued for a subject with a 30-minute expiry is accepted, and
    yields the subject, from the moment of issuance until it expires. *)
Theorem token_service_contract (key : string) :
  (forall (data : claims) (utcnow : Z),
      create_access_token key data None utcnow
      = jwt_encode key (<["exp" := JInt (timegm utcnow + 900)]> data))
  /\ (forall (verify_password : string -> string -> bool)
             (db : gmap string UserInDB) (user : UserLogin) (utcnow : Z)
             (tok : Token),
         login key verify_password db user utcnow = ret tok ->
         exists user_in_db,
           db !! login_username user = Some user_in_db
           /\ access_token tok
              = jwt_encode key
                  (plain_claims (Some (username user_in_db))
                     (Some (timegm utcnow + 1800))))
  /\ (forall (t : token) (utcnow : Z),
         listed_cause key t utcnow = true ->
         rejected (verify_token key t utcnow))
  /\ (forall (alg k : string) (sub : option string) (exp : option Z)
             (utcnow : Z),
         let t := Signed alg k (Claims (plain_claims sub exp)) in
         rejected (verify_token key t utcnow)
         <-> listed_cause key t utcnow = true)
  /\ (forall (subject : string) (issued utcnow : Z),
         issued <= utcnow <= issued + minutes 30 ->
         verify_token key
           (create_access_token key {[ "sub" := JStr subject ]}
              (Some (minutes 30)) issued)
           utcnow
         = ret (JStr subject)).
Proof.
  split; [|split; [|split; [|split]]].
  - intros data utcnow. unfold create_access_token.
    now rewrite timegm_add_minutes.
  - intros verify_password db user utcnow tok. unfold login, authenticate_user.
    destruct (db !! login_username user) as [u|]; [|discriminate].
    destruct (negb _); [discriminate|].
    intros H. injection H as <-. exists u. split; [reflexivity|].
    simpl. unfold create_access_token. simpl.
    now rewrite timegm_add_minutes.
  - intros t utcnow Hcause.
    destruct (verify_token_cases key t utcnow) as [[v Hv] | Hr]; [|exact Hr].
    apply accepted_has_no_listed_cause in Hv. congruence.
  - intros alg k sub exp utcnow t. unfold t, rejected.
    rewrite verify_plain, listed_cause_plain.
    destruct (negb (String.eqb alg ALGORITHM) || negb (String.eqb k key));
      [simpl; tauto|].
    destruct exp as [e|], sub as [u|]; simpl;
      try destruct (e <? timegm utcnow); simpl;
      split; intros H; try reflexivity; discriminate.
  - intros subject issued utcnow [H1 H2]. unfold create_access_token.
    change (minutes 30 =? 0) with false. cbv beta iota.
    change (jwt_encode key
              (<["exp" := JInt (timegm (issued + minutes 30))]>
                 {["sub" := JStr subject]}))
      with (Signed ALGORITHM key
              (Claims (plain_claims (Some subject)
                         (Some (timegm (issued + minutes 30)))))).
    rewrite verify_plain, !String.eqb_refl. simpl.
    apply timegm_mono in H2.
    destruct (timegm (issued + minutes 30) <? timegm utcnow) eqn:E;
      [apply Z.ltb_lt in E; lia | reflexivity].
Qed.

Lemma token_service_contract_witness :
  verify_token SECRET
    (create_access_token SECRET {[ "sub" := JStr "alice" ]}
       (Some (minutes 30)) 1700000000123456)
    1700000000123456
  = ret (JStr "alice").
Proof.
  apply (proj2 (proj2 (proj2 (proj2 (token_service_contract SECRET))))
           "alice" 1700000000123456 1700000000123456).
  vm_compute. split; discriminate.
Defined.

Example expired_token_is_rejected :
  rejected
    (verify_token SECRET
       (create_access_token SECRET {[ "sub" := JStr "alice" ]}
          (Some (minutes 30)) 1700000000123456)
       (1700000000123456 + minutes 30 + 1000000)).
Proof. reflexivity. Qed.

Example zero_expiry_takes_the_default :
  create_access_token SECRET {[ "sub" := JStr "alice" ]} (Some 0) 0
  = create_access_token SECRET {[ "sub" := JStr "alice" ]} None 0.
Proof. reflexivity. Qed.

End AuthSpec.

(** * Further properties of the code *)

(** ** Where an upload is stored *)

Module StorageSpec.
Import Py PyFacts FileUtils Notions Samples ExtraNotions FileUtilsFacts
  SaveSpec CollisionSpec.

Lemma uint_chars (d : Decimal.uint) :
  forallb sign_or_digit (chars (NilEmpty.string_of_uint d)) = true.
Proof. induction d; simpl; auto. Qed.

Lemma nilzero_chars (d : Decimal.uint) :
  forallb sign_or_digit (chars (NilZero.string_of_uint d)) = true.
Proof. destruct d; first [reflexivity | apply uint_chars]. Qed.

(** A printed integer is made of digits and at most a sign. *)
Lemma str_of_int_chars (n : Z) :
  forallb sign_or_digit (chars (str_of_int n)) = true.
Proof.
  unfold str_of_int, NilZero.string_of_int.
  destruct (Z.to_int n) as [d|d]; [apply nilzero_chars|].
  change (chars (String "-" (NilZero.string_of_uint d)))
    with ("-"%char :: chars (NilZero.string_of_uint d)).
  simpl. apply nilzero_chars.
Qed.

Lemma forallb_excludes (p : ascii -> bool) (c : ascii) (l : list ascii) :
  forallb p l = true -> p c = false -> existsb (Ascii.eqb c) l = false.
Proof.
  intros Hall Hc. induction l as [|x l IH]; [reflexivity|].
  simpl in *. apply andb_true_iff in Hall as [Hx Hl].
  rewrite (IH Hl), orb_false_r. apply Ascii.eqb_neq. congruence.
Qed.

Lemma str_of_int_without (c : ascii) (n : Z) :
  sign_or_digit c = false -> contains c (str_of_int n) = false.
Proof. intros Hc. exact (forallb_excludes _ _ _ (str_of_int_chars n) Hc). Qed.

Lemma contains_firstn c n l :
  existsb (Ascii.eqb c) l = false ->
  existsb (Ascii.eqb c) (firstn n l) = false.
Proof.
  revert n. induction l as [|x l IH]; intros n H.
  - now destruct n.
  - destruct n as [|n]; [reflexivity|].
    simpl in *. apply orb_false_iff in H as [Hx H].
    now rewrite Hx, IH.
Qed.

Lemma stem_keeps_absent c (path : string) :
  contains c (path_name path) = false -> contains c (stem path) = false.
Proof.
  intros H. unfold stem. destruct (suffix_index _); [|exact H].
  unfold contains, take_str. rewrite chars_str. now apply contains_firstn.
Qed.

Lemma suffix_keeps_absent c (path : string) :
  contains c (path_name path) = false -> contains c (suffix path) = false.
Proof.
  intros H. unfold suffix. destruct (suffix_index _); [|reflexivity].
  unfold contains, drop_str. rewrite chars_str. now apply contains_skipn.
Qed.

Lemma stamped_name_no_slash (path : string) (timestamp : Z) :
  no_slash (path_name path) -> no_slash (stamped_name path timestamp).
Proof.
  unfold no_slash, stamped_name. intros H. rewrite !contains_app.
  rewrite (stem_keeps_absent _ _ H), (suffix_keeps_absent _ _ H).
  now rewrite str_of_int_without.
Qed.

(** The name a collision gives is not the name that was taken. *)
Lemma renamed_differs (file : UploadFile) (timestamp : Z) :
  In (checked_suffix file) ALLOWED_SUFFIXES ->
  in_upload_dir (stamped_name (target_of file) timestamp) <> target_of file.
Proof.
  intros Hin E. unfold target_of in *.
  destruct (allowed_suffix_plain_target (basename (filename file))
              (basename_no_slash _) Hin) as [_ Hn].
  pose proof (stamped_name_longer
                (in_upload_dir (basename (filename file))) timestamp) as Hl.
  pose proof (proj2 (len_in_upload_dir _)
                (stamped_name_not_dot
                   (in_upload_dir (basename (filename file))) timestamp))
    as H1.
  rewrite E in H1.
  pose proof (proj1 (len_in_upload_dir (basename (filename file)))) as H2.
  rewrite Hn in Hl. lia.
Qed.

(** What a call that returns has done. *)
Lemma save_returns (fs fs' : files) (clock : Z) (file : UploadFile)
  (path : string) :
  save_and_validate_file fs clock file = ret (path, fs') ->
  In (checked_suffix file) ALLOWED_SUFFIXES
  /\ path = (if path_exists fs (target_of file)
             then in_upload_dir
                    (stamped_name (target_of file) (unix_time clock))
             else target_of file)
  /\ fs' = <[path := body file]> fs.
Proof.
  intros H.
  destruct (is_allowed (checked_suffix file)) eqn:E.
  - apply is_allowed_In in E. rewrite (save_accepts fs clock file E) in H.
    injection H as <- <-. auto.
  - unfold save_and_validate_file in H. fold (checked_suffix file) in H.
    rewrite E in H. discriminate.
Qed.

(** X1.  A file is only ever written directly inside the upload directory:
    the path of a saved upload is [uploads/<name>] where the name has no
    slash and is none of the empty name, [.] and [..], whatever the uploaded
    filename was. *)
Theorem save_stays_inside_upload_dir (fs fs' : files) (clock : Z)
  (file : UploadFile) (path : string) :
  save_and_validate_file fs clock file = ret (path, fs') ->
  exists name : string,
    path = UPLOAD_DIR ++ "/" ++ name
    /\ no_slash name /\ name <> "" /\ name <> "." /\ name <> "..".
Proof.
  intros H. destruct (save_returns _ _ _ _ _ H) as (Hin & -> & _).
  destruct (allowed_suffix_plain_target (basename (filename file))
              (basename_no_slash _) Hin) as [Htarget Hname].
  destruct (path_exists fs (target_of file)).
  - exists (stamped_name (target_of file) (unix_time clock)).
    pose proof (stamped_name_not_dot (target_of file) (unix_time clock)) as Hd.
    assert (Hu : contains "_" (stamped_name (target_of file) (unix_time clock))
                 = true).
    { unfold stamped_name. rewrite !contains_app.
      change (contains "_" "_") with true. now rewrite orb_true_r. }
    split; [unfold in_upload_dir; now rewrite Hd|].
    split; [apply stamped_name_no_slash; unfold target_of; rewrite Hname;
            apply basename_no_slash|].
    repeat split; intros E; rewrite E in Hu; discriminate.
  - exists (basename (filename file)). split; [exact Htarget|].
    split; [apply basename_no_slash|].
    unfold checked_suffix in Hin.
    repeat split; intros E; rewrite E in Hin; vm_compute in Hin;
      intuition discriminate.
Qed.

Lemma save_stays_inside_upload_dir_witness :
  exists name : string,
    "uploads/passwd.csv" = UPLOAD_DIR ++ "/" ++ name
    /\ no_slash name /\ name <> "" /\ name <> "." /\ name <> "..".
Proof.
  apply (save_stays_inside_upload_dir ∅ (<["uploads/passwd.csv" := []]> ∅) 0
           {| filename := "../../etc/passwd.csv"; content_type := None;
              body := [] |} "uploads/passwd.csv").
  reflexivity.
Defined.

(** X2.  Saving an upload writes its bytes at the returned path and leaves
    every other file as it was; in particular a file that already bears the
    uploaded name is never overwritten. *)
Theorem save_keeps_other_files (fs fs' : files) (clock : Z)
  (file : UploadFile) (path : string) :
  save_and_validate_file fs clock file = ret (path, fs') ->
  fs' !! path = Some (body file)
  /\ (forall p : string, p <> path -> fs' !! p = fs !! p)
  /\ (forall old : list Byte.byte,
        fs !! target_of file = Some old ->
        path <> target_of file /\ fs' !! target_of file = Some old).
Proof.
  intros H. destruct (save_returns _ _ _ _ _ H) as (Hin & Hpath & ->).
  split; [apply lookup_insert_eq|].
  split; [intros p Hp; now apply lookup_insert_ne|].
  intros old Hold.
  assert (Hex : path_exists fs (target_of file) = true).
  { unfold path_exists. apply bool_decide_eq_true. rewrite Hold. eauto. }
  rewrite Hex in Hpath.
  assert (Hne : path <> target_of file).
  { rewrite Hpath. now apply renamed_differs. }
  split; [exact Hne|]. now rewrite lookup_insert_ne.
Qed.

Lemma save_keeps_other_files_witness :
  disk1 !! "uploads/data_1700000000.csv" = Some [Byte.x01]
  /\ (forall p : string,
        p <> "uploads/data_1700000000.csv" -> disk1 !! p = disk0 !! p)
  /\ (forall old : list Byte.byte,
        disk0 !! target_of (data_csv [Byte.x01]) = Some old ->
        "uploads/data_1700000000.csv" <> target_of (data_csv [Byte.x01])
        /\ disk1 !! target_of (data_csv [Byte.x01]) = Some old).
Proof.
  apply (save_keeps_other_files disk0 disk1 1700000000200000
           (data_csv [Byte.x01]) "uploads/data_1700000000.csv").
  vm_compute. reflexivity.
Defined.

Lemma rfind_split c (s : string) (i : nat) :
  rfind c s = Some i ->
  exists l1 l2,
    chars s = (l1 ++ c :: l2)%list
    /\ List.length l1 = i /\ existsb (Ascii.eqb c) l2 = false.
Proof.
  unfold rfind. intros H.
  destruct (existsb (Ascii.eqb c) (chars s)) eqn:E.
  - destruct (last_occurrence _ _ E) as (l1 & l2 & Hs & H2).
    rewrite Hs, rfind_go_last in H by assumption.
    injection H as <-. eauto.
  - rewrite rfind_go_absent in H by assumption. discriminate.
Qed.

(** A name with a suffix: a non-empty stem, a dot, and a non-empty rest
    without a dot. *)
Lemma suffix_index_split (name : string) (i : nat) :
  suffix_index name = Some i ->
  exists l1 l2,
    chars name = (l1 ++ "."%char :: l2)%list
    /\ List.length l1 = i /\ l1 <> [] /\ l2 <> []
    /\ existsb (Ascii.eqb ".") l2 = false.
Proof.
  unfold suffix_index. destruct (rfind "." name) as [j|] eqn:E; [|discriminate].
  destruct (_ && _) eqn:B; [|discriminate]. intros H. injection H as <-.
  destruct (rfind_split _ _ _ E) as (l1 & l2 & Hs & Hl & H2).
  apply andb_true_iff in B as [B1 B2].
  apply Nat.ltb_lt in B1. apply Nat.ltb_lt in B2.
  exists l1, l2. repeat split; try assumption.
  - intros ->. simpl in Hl. lia.
  - intros ->. unfold len in B2. rewrite Hs, length_app in B2.
    simpl in B2. lia.
Qed.

Lemma suffix_index_of_split (l1 l2 : list ascii) :
  l1 <> [] -> l2 <> [] -> existsb (Ascii.eqb ".") l2 = false ->
  suffix_index (str (l1 ++ "."%char :: l2)) = Some (List.length l1).
Proof.
  intros H1 H2 Hno. unfold suffix_index, rfind, len. rewrite chars_str.
  rewrite rfind_go_last by assumption. simpl.
  assert (B1 : (0 <? List.length l1)%nat = true).
  { apply Nat.ltb_lt. destruct l1; [contradiction | simpl; lia]. }
  assert (B2 : (List.length l1
                <? List.length (l1 ++ "."%char :: l2) - 1)%nat = true).
  { apply Nat.ltb_lt. rewrite length_app. simpl.
    destruct l2; [contradiction | simpl; lia]. }
  now rewrite B1, B2.
Qed.

Lemma skipn_length_app (A : Type) (l1 l2 : list A) :
  skipn (List.length l1) (l1 ++ l2) = l2.
Proof. induction l1 as [|x l1 IH]; [reflexivity | exact IH]. Qed.

Lemma firstn_length_app (A : Type) (l1 l2 : list A) :
  firstn (List.length l1) (l1 ++ l2) = l1.
Proof. induction l1 as [|x l1 IH]; [reflexivity | simpl; now rewrite IH]. Qed.

(** The suffix of the name given on a collision is the suffix of the name
    that was taken. *)
Lemma stamped_name_suffix (path : string) (timestamp : Z) (i : nat) :
  no_slash (path_name path) ->
  suffix_index (path_name path) = Some i ->
  suffix (in_upload_dir (stamped_name path timestamp)) = suffix path.
Proof.
  intros Hslash Hi.
  destruct (suffix_index_split _ _ Hi) as (l1 & l2 & Hs & Hl & Hn1 & Hn2 & Hdot).
  assert (Hstem : stem path = str l1).
  { unfold stem. rewrite Hi. unfold take_str. rewrite Hs, <- Hl.
    now rewrite firstn_length_app. }
  assert (Hsfx : suffix path = str ("."%char :: l2)).
  { unfold suffix. rewrite Hi. unfold drop_str. rewrite Hs, <- Hl.
    now rewrite skipn_length_app. }
  assert (Hname : stamped_name path timestamp
                  = str ((l1 ++ "_"%char :: chars (str_of_int timestamp))
                         ++ "."%char :: l2)).
  { unfold stamped_name. rewrite Hstem, Hsfx. apply chars_inj.
    rewrite !chars_app, !chars_str. simpl. now rewrite <- app_assoc. }
  assert (Hpn : path_name (in_upload_dir (stamped_name path timestamp))
                = stamped_name path timestamp).
  { rewrite path_name_in_upload_dir by now apply stamped_name_no_slash.
    now rewrite stamped_name_not_dot. }
  unfold suffix at 1. rewrite Hpn, Hname.
  rewrite suffix_index_of_split; try assumption.
  - unfold drop_str. rewrite chars_str, skipn_length_app. now rewrite Hsfx.
  - now destruct l1.
Qed.

(** X3.  A stored upload keeps the suffix it was accepted with, also when a
    collision gives it another name: the suffix of the returned path is the
    suffix that passed the check, one of the five allowed. *)
Theorem saved_path_keeps_suffix (fs fs' : files) (clock : Z)
  (file : UploadFile) (path : string) :
  save_and_validate_file fs clock file = ret (path, fs') ->
  suffix path = checked_suffix file /\ In (suffix path) ALLOWED_SUFFIXES.
Proof.
  intros H. destruct (save_returns _ _ _ _ _ H) as (Hin & -> & _).
  assert (E : suffix
                (if path_exists fs (target_of file)
                 then in_upload_dir
                        (stamped_name (target_of file) (unix_time clock))
                 else target_of file)
              = checked_suffix file).
  { destruct (path_exists fs (target_of file)); [|reflexivity].
    destruct (allowed_suffix_plain_target (basename (filename file))
                (basename_no_slash _) Hin) as [_ Hname].
    fold (target_of file) in Hname.
    destruct (suffix_index (path_name (target_of file))) as [i|] eqn:Hi.
    - apply (stamped_name_suffix _ _ i); [|exact Hi].
      rewrite Hname. apply basename_no_slash.
    - exfalso. unfold checked_suffix, suffix in Hin.
      fold (target_of file) in Hin. rewrite Hi in Hin.
      vm_compute in Hin. intuition discriminate. }
  rewrite E. split; [reflexivity | exact Hin].
Qed.

Lemma saved_path_keeps_suffix_witness :
  suffix "uploads/data_1700000000.csv" = checked_suffix (data_csv [Byte.x01])
  /\ In (suffix "uploads/data_1700000000.csv") ALLOWED_SUFFIXES.
Proof.
  apply (saved_path_keeps_suffix disk0 disk1 1700000000200000
           (data_csv [Byte.x01]) "uploads/data_1700000000.csv").
  vm_compute. reflexivity.
Defined.

End StorageSpec.

(** ** The schema, further *)

Module SchemaSpec.
Import Py PyFacts Regex RegexFacts Validation Notions Samples ExtraNotions
  ValidationFacts RecordSpec.

Lemma isalpha_after_removal (l : list ascii) :
  forallb isalpha_char (List.filter (fun x => negb (Ascii.eqb x " ")) l) = true ->
  forallb (fun c => isalpha_char c || Ascii.eqb c " ") l = true.
Proof.
  induction l as [|c l IH]; simpl; intros H; [reflexivity|].
  destruct (Ascii.eqb c " ") eqn:E; simpl in H.
  - rewrite orb_true_r. now apply IH.
  - apply andb_true_iff in H as [Hc Hl]. rewrite Hc. now apply IH.
Qed.

Lemma letter_after_removal (l : list ascii) :
  List.filter (fun x => negb (Ascii.eqb x " ")) l <> [] ->
  forallb isalpha_char (List.filter (fun x => negb (Ascii.eqb x " ")) l) = true ->
  existsb isalpha_char l = true.
Proof.
  induction l as [|c l IH]; simpl; intros Hne H; [contradiction|].
  destruct (Ascii.eqb c " ") eqn:E; simpl in *.
  - rewrite (IH Hne H). apply orb_true_r.
  - apply andb_true_iff in H as [Hc _]. now rewrite Hc.
Qed.

(** What a name that passes is. *)
Lemma validate_name_inv (v : option pyval) (n : string) :
  validate_name v = inl n ->
  v = Some (VStr n) /\ letters_and_spaces n /\ has_letter n.
Proof.
  unfold validate_name. destruct v as [[| | | |s]|]; try discriminate.
  destruct (len s <? 1)%nat; [discriminate|].
  unfold name_must_be_alpha, isalpha, remove_char. rewrite chars_str.
  destruct (List.filter _ (chars s)) as [|x l] eqn:F; [discriminate|].
  destruct (forallb isalpha_char (x :: l)) eqn:A; [|discriminate].
  simpl. intros H. injection H as <-.
  unfold letters_and_spaces, has_letter. rewrite <- F in A.
  repeat split.
  - now apply isalpha_after_removal.
  - apply letter_after_removal; [rewrite F; discriminate | exact A].
Qed.

Lemma validate_age_positive (v : option pyval) (a : Z) :
  validate_age v = inl a -> 0 < a.
Proof.
  assert (G : forall z, (if 0 <? z then inl z
                         else inr (FieldError "age" "greater_than"))
                        = (inl a : Z + field_error) -> 0 < a).
  { intros z. destruct (0 <? z) eqn:E; [|discriminate].
    intros H. injection H as <-. now apply Z.ltb_lt. }
  unfold validate_age. destruct v as [[|b|z|f|s]|]; try discriminate.
  - apply G.
  - apply G.
  - destruct (float_as_int f); [apply G | discriminate].
  - destruct (str_as_int s); [apply G | discriminate].
Qed.

Lemma validate_name_loc v e :
  validate_name v = inr e -> exists type, e = FieldError "name" type.
Proof.
  unfold validate_name, name_must_be_alpha.
  destruct v as [[| | | |s]|]; intros H; try (injection H as <-; eauto).
  destruct (len s <? 1)%nat; [injection H as <-; eauto|].
  destruct (negb _); [injection H as <-; eauto | discriminate].
Qed.

Lemma validate_age_loc v e :
  validate_age v = inr e -> exists type, e = FieldError "age" type.
Proof.
  assert (G : forall z, (if 0 <? z then inl z
                         else inr (FieldError "age" "greater_than"))
                        = (inr e : Z + field_error) ->
                        exists type, e = FieldError "age" type).
  { intros z. destruct (0 <? z); [discriminate|].
    intros H. injection H as <-. eauto. }
  unfold validate_age. destruct v as [[|b|z|f|s]|]; intros H;
    try (injection H as <-; eauto); try (now apply (G _ H)).
  - destruct (float_as_int f); [now apply (G _ H) | injection H as <-; eauto].
  - destruct (str_as_int s); [now apply (G _ H) | injection H as <-; eauto].
Qed.

(** A record that validates, and what comes back. *)
Lemma validated_shape (d v : pydict) :
  validate_onboarding_data d = ret v ->
  exists n e a,
    v = record3 n e (VInt a)
    /\ validate_name (d !! "name") = inl n
    /\ validate_email (d !! "email") = inl e
    /\ validate_age (d !! "age") = inl a.
Proof.
  unfold validate_onboarding_data. intros H.
  destruct (init_errors d) as [(n & e & a & Hn & He & Ha & E) | [E _]];
    rewrite E in H; [|discriminate].
  injection H as <-. exists n, e, a. auto.
Qed.

(** X4.  What validation returns is always a well-formed record: exactly
    the entries [name], [email] and [age]; the name and the email are the
    strings of the input, the name made of letters and spaces with at least
    one letter, the email matched by the pattern; the age is an integer above
    0.  Entries of the input under other keys are dropped. *)
Theorem validated_record_is_well_formed (d v : pydict) :
  validate_onboarding_data d = ret v ->
  exists (n e : string) (a : Z),
    v = record3 n e (VInt a)
    /\ dom v = ({[ "name"; "email"; "age" ]} : gset string)
    /\ d !! "name" = Some (VStr n) /\ letters_and_spaces n /\ has_letter n
    /\ d !! "email" = Some (VStr e) /\ found EMAIL_PATTERN e
    /\ 0 < a.
Proof.
  intros H. destruct (validated_shape d v H) as (n & e & a & -> & Hn & He & Ha).
  apply validate_name_inv in Hn as (Hn & Hls & Hl).
  apply validate_email_ok in He as [He Hf].
  apply validate_age_positive in Ha.
  exists n, e, a. split; [reflexivity|]. split.
  { unfold record3. rewrite !dom_insert_L, dom_empty_L. set_solver. }
  auto 10.
Qed.

Lemma validated_record_is_well_formed_witness :
  exists (n e : string) (a : Z),
    record3 "Jane Doe" "jane@x.com" (VInt 30) = record3 n e (VInt a)
    /\ dom (record3 "Jane Doe" "jane@x.com" (VInt 30))
       = ({[ "name"; "email"; "age" ]} : gset string)
    /\ <["plan" := VStr "pro"]> string_age_record !! "name" = Some (VStr n)
    /\ letters_and_spaces n /\ has_letter n
    /\ <["plan" := VStr "pro"]> string_age_record !! "email" = Some (VStr e)
    /\ found EMAIL_PATTERN e
    /\ 0 < a.
Proof.
  apply (validated_record_is_well_formed
           (<["plan" := VStr "pro"]> string_age_record)
           (record3 "Jane Doe" "jane@x.com" (VInt 30))).
  vm_compute. reflexivity.
Defined.

(** X5.  Validation is idempotent: a record that validation returned
    validates again, to itself. *)
Theorem validation_is_idempotent (d v : pydict) :
  validate_onboarding_data d = ret v ->
  validate_onboarding_data v = ret v.
Proof.
  intros H. destruct (validated_shape d v H) as (n & e & a & -> & Hn & He & Ha).
  apply validate_name_inv in Hn as (_ & Hls & Hl).
  apply validate_email_ok in He as [_ Hf].
  apply validate_age_positive in Ha.
  unfold validate_onboarding_data.
  rewrite (init_ok (record3 n e (VInt a)) n e a); [reflexivity| | |].
  - now apply validate_name_ok.
  - apply validate_email_ok. split; [reflexivity | exact Hf].
  - unfold record3. rewrite !lookup_insert_ne by discriminate.
    rewrite lookup_insert_eq. simpl.
    apply Z.ltb_lt in Ha. now rewrite Ha.
Qed.

Lemma validation_is_idempotent_witness :
  validate_onboarding_data (record3 "Jane Doe" "jane@x.com" (VInt 30))
  = ret (record3 "Jane Doe" "jane@x.com" (VInt 30)).
Proof.
  apply (validation_is_idempotent string_age_record). vm_compute. reflexivity.
Defined.

Lemma errors_locs {A} (r : A + field_error) (loc : string) :
  (forall e, r = inr e -> exists type, e = FieldError loc type) ->
  map loc_of (errors_of r) = if passes r then [] else [loc].
Proof.
  destruct r as [a|e]; [reflexivity|]. intros H.
  destruct (H e eq_refl) as [type ->]. reflexivity.
Qed.

(** X6.  A failed validation reports the failing fields in the order of the
    schema, each once: the locations of the report are the fields that fail
    among [name], [email], [age], in this order, and there is at least one.
    So the field the upload names in its error is the first of the three that
    fails. *)
Theorem report_lists_failing_fields_in_order
  (d : pydict) (errors : list field_error) :
  validate_onboarding_data d = raise (ValidationValueError errors) ->
  map loc_of errors = failing_fields d
  /\ exists first rest,
       errors = first :: rest
       /\ loc_of first
          = if negb (passes (validate_name (d !! "name"))) then "name"
            else if negb (passes (validate_email (d !! "email"))) then "email"
            else "age".
Proof.
  unfold validate_onboarding_data. intros H.
  destruct (init_errors d) as [(n & e & a & _ & _ & _ & E) | [E Hne]];
    rewrite E in H; [discriminate|].
  injection H as <-.
  assert (Hlocs : map loc_of
                    (errors_of (validate_name (d !! "name"))
                     ++ errors_of (validate_email (d !! "email"))
                     ++ errors_of (validate_age (d !! "age")))%list
                  = failing_fields d).
  { rewrite !map_app. unfold failing_fields.
    rewrite (errors_locs _ "name") by apply validate_name_loc.
    rewrite (errors_locs _ "email") by apply validate_email_loc.
    now rewrite (errors_locs _ "age") by apply validate_age_loc. }
  split; [exact Hlocs|].
  destruct (_ ++ _)%list as [|first rest] eqn:L; [contradiction|].
  exists first, rest. split; [reflexivity|].
  unfold failing_fields in Hlocs. simpl in Hlocs.
  destruct (passes (validate_name (d !! "name")));
    destruct (passes (validate_email (d !! "email")));
    destruct (passes (validate_age (d !! "age")));
    simpl in *; try discriminate; now injection Hlocs.
Qed.

Lemma report_lists_failing_fields_in_order_witness :
  map loc_of
    [FieldError "email" "string_pattern_mismatch";
     FieldError "age" "greater_than"]
  = failing_fields (record3 "Jane Doe" "jane.x.com" (VInt 0))
  /\ exists first rest,
       [FieldError "email" "string_pattern_mismatch";
        FieldError "age" "greater_than"] = first :: rest
       /\ loc_of first
          = if negb (passes (validate_name
                               (record3 "Jane Doe" "jane.x.com" (VInt 0)
                                  !! "name")))
            then "name"
            else if negb (passes (validate_email
                                    (record3 "Jane Doe" "jane.x.com" (VInt 0)
                                       !! "email")))
            then "email"
            else "age".
Proof.
  apply (report_lists_failing_fields_in_order
           (record3 "Jane Doe" "jane.x.com" (VInt 0))).
  vm_compute. reflexivity.
Defined.

Lemma removal_keeps_other (c : ascii) (l : list ascii) :
  In c l -> c <> " "%char ->
  In c (List.filter (fun x => negb (Ascii.eqb x " ")) l).
Proof.
  intros Hin Hc. apply filter_In. split; [exact Hin|].
  apply negb_true_iff. now apply Ascii.eqb_neq.
Qed.

(** X7.  A name with a character that is neither a letter nor a space (a
    digit, a punctuation mark) fails validation, and the report starts with
    the field [name], whatever the other fields are. *)
Theorem name_with_other_character_fails (d : pydict) (n : string) (c : ascii) :
  d !! "name" = Some (VStr n) ->
  In c (chars n) -> isalpha_char c = false -> c <> " "%char ->
  exists rest,
    validate_onboarding_data d
    = raise (ValidationValueError (FieldError "name" "value_error" :: rest)).
Proof.
  intros Hn Hin Hc Hsp.
  assert (Hname : validate_name (d !! "name")
                  = inr (FieldError "name" "value_error")).
  { rewrite Hn. unfold validate_name.
    assert (Hlen : (len n <? 1)%nat = false).
    { unfold len. destruct (chars n); [destruct Hin | reflexivity]. }
    rewrite Hlen. unfold name_must_be_alpha, isalpha, remove_char.
    rewrite chars_str.
    pose proof (removal_keeps_other c (chars n) Hin Hsp) as Hkept.
    destruct (List.filter _ (chars n)) as [|x l] eqn:F; [reflexivity|].
    assert (Hall : forallb isalpha_char (x :: l) = false).
    { apply not_true_is_false. intros Hall.
      rewrite forallb_forall in Hall. specialize (Hall c Hkept).
      congruence. }
    now rewrite Hall. }
  unfold validate_onboarding_data, init. rewrite Hname.
  eexists. simpl. reflexivity.
Qed.

Lemma name_with_other_character_fails_witness :
  exists rest,
    validate_onboarding_data john3
    = raise (ValidationValueError (FieldError "name" "value_error" :: rest)).
Proof.
  apply (name_with_other_character_fails john3 "John3" "3").
  - reflexivity.
  - simpl. tauto.
  - reflexivity.
  - discriminate.
Defined.

(** X8.  A record whose age is an integer that is zero or negative fails
    validation, and the report has the entry of the field [age] for a value
    not above 0. *)
Theorem nonpositive_age_fails (d : pydict) (z : Z) :
  d !! "age" = Some (VInt z) -> z <= 0 ->
  exists errors,
    validate_onboarding_data d = raise (ValidationValueError errors)
    /\ In (FieldError "age" "greater_than") errors.
Proof.
  intros Ha Hz.
  assert (Hage : validate_age (d !! "age")
                 = inr (FieldError "age" "greater_than")).
  { rewrite Ha. simpl. destruct (0 <? z) eqn:E; [|reflexivity].
    apply Z.ltb_lt in E. lia. }
  unfold validate_onboarding_data.
  destruct (init_errors d) as [(n & e & a & _ & _ & Ha' & _) | [-> _]].
  - congruence.
  - eexists. split; [reflexivity|]. rewrite Hage.
    apply in_or_app. right. apply in_or_app. right. simpl. auto.
Qed.

Lemma nonpositive_age_fails_witness :
  exists errors,
    validate_onboarding_data (record3 "Jane Doe" "jane@x.com" (VInt 0))
    = raise (ValidationValueError errors)
    /\ In (FieldError "age" "greater_than") errors.
Proof.
  apply (nonpositive_age_fails (record3 "Jane Doe" "jane@x.com" (VInt 0)) 0).
  - reflexivity.
  - lia.
Defined.

End SchemaSpec.

(** ** The DOCX extractor *)

Module DocxSpec.
Import Py PyFacts Upload Notions Samples ExtraNotions.

Lemma digit_not_space_nor_sign c :
  isdigit_char c = true ->
  isspace c = false /\ c <> "+"%char /\ c <> "-"%char.
Proof.
  destruct c as [[] [] [] [] [] [] [] []]; intros H;
    try discriminate H; repeat split; discriminate.
Qed.

Lemma lstrip_digits l : forallb isdigit_char l = true -> lstrip_chars l = l.
Proof.
  destruct l as [|c l]; simpl; [reflexivity|]. intros H.
  apply andb_true_iff in H as [Hc _].
  now rewrite (proj1 (digit_not_space_nor_sign c Hc)).
Qed.

Lemma isdigit_forallb s : isdigit s = true -> forallb isdigit_char (chars s) = true.
Proof. unfold isdigit. destruct (chars s); [discriminate | auto]. Qed.

Lemma strip_digits (s : string) : isdigit s = true -> strip s = s.
Proof.
  intros H. apply isdigit_forallb in H. unfold strip.
  rewrite (lstrip_digits _ H).
  rewrite lstrip_digits by now rewrite AgeSpec.forallb_rev.
  now rewrite rev_involutive, str_chars.
Qed.

(** What [int()] makes of a string of digits. *)
Lemma signed_decimal_isdigit (s : string) :
  isdigit s = true ->
  signed_decimal s
  = if all_decimal (chars s) then Some (digits_value (chars s)) else None.
Proof.
  intros H. unfold signed_decimal. rewrite (strip_digits s H).
  pose proof (isdigit_forallb s H) as Hall.
  destruct (chars s) as [|c l]; [reflexivity|].
  simpl in Hall. apply andb_true_iff in Hall as [Hc _].
  destruct (digit_not_space_nor_sign c Hc) as (_ & Hp & Hm).
  destruct c as [[] [] [] [] [] [] [] []]; try reflexivity; congruence.
Qed.

Lemma digit_value_nonneg c : isdecimal c = true -> 0 <= digit_value c.
Proof.
  destruct c as [[] [] [] [] [] [] [] []]; intros H; try discriminate H;
    now vm_compute.
Qed.

Lemma fold_digits_nonneg l acc :
  forallb isdecimal l = true -> 0 <= acc ->
  0 <= fold_left (fun acc c => 10 * acc + digit_value c) l acc.
Proof.
  revert acc. induction l as [|c l IH]; intros acc H Hacc; simpl; [exact Hacc|].
  simpl in H. apply andb_true_iff in H as [Hc Hl].
  apply IH; [exact Hl|]. pose proof (digit_value_nonneg c Hc). lia.
Qed.

Lemma digits_value_nonneg l : all_decimal l = true -> 0 <= digits_value l.
Proof.
  intros H. apply AgeSpec.all_decimal_forallb in H.
  apply fold_digits_nonneg; [exact H | lia].
Qed.

Lemma all_decimal_isdigit (s : string) :
  all_decimal (chars s) = true -> isdigit s = true.
Proof.
  unfold all_decimal, isdigit. destruct (chars s) as [|c l]; [discriminate|].
  intros H. apply forallb_forall. intros x Hx.
  rewrite forallb_forall in H. unfold isdigit_char. now rewrite (H x Hx).
Qed.

(** The outcome of one row. *)
Lemma docx_row_cases (row : list string) :
  (aborting_row row = true /\ exists e, docx_row row = inr e)
  \/ (aborting_row row = false /\ docx_row row = ret (docx_row_record row)).
Proof.
  unfold aborting_row, docx_row, docx_row_record.
  destruct row as [|c0 [|c1 [|c2 rest]]]; simpl; eauto.
  unfold unreadable_digits, py_int.
  destruct (isdigit (strip c2)) eqn:D; simpl.
  - rewrite (signed_decimal_isdigit _ D).
    destruct (all_decimal (chars (strip c2))); simpl; eauto.
  - right. split; [reflexivity|].
    destruct (all_decimal (chars (strip c2))) eqn:A; [|reflexivity].
    apply all_decimal_isdigit in A. congruence.
Qed.

Lemma docx_row_record_extracted (row : list string) (r : pydict) :
  docx_row_record row = Some r -> extracted_record r.
Proof.
  unfold docx_row_record. destruct row as [|c0 [|c1 [|c2 rest]]];
    try discriminate.
  destruct (all_decimal (chars (strip c2))) eqn:A; [|discriminate].
  intros H. injection H as <-.
  exists (strip c0), (strip c1), (digits_value (chars (strip c2))).
  split; [reflexivity | now apply digits_value_nonneg].
Qed.

Lemma docx_rows_extracted (rows : list (list string)) (acc out : list pydict) :
  Forall extracted_record acc ->
  docx_rows rows acc = ret out -> Forall extracted_record out.
Proof.
  revert acc. induction rows as [|row rows IH]; intros acc Hacc; simpl.
  - intros H. now injection H as <-.
  - destruct (docx_row_cases row) as [[_ [e He]] | [_ He]]; rewrite He; simpl;
      [discriminate|].
    destruct (docx_row_record row) as [r|] eqn:R; [|now apply IH].
    apply IH. apply Forall_app. split; [exact Hacc|].
    constructor; [|constructor]. now apply (docx_row_record_extracted row).
Qed.

Lemma docx_tables_extracted (tables : list (list (list string)))
  (acc out : list pydict) :
  Forall extracted_record acc ->
  docx_tables_loop tables acc = ret out -> Forall extracted_record out.
Proof.
  revert acc. induction tables as [|rows tables IH]; intros acc Hacc; simpl.
  - intros H. now injection H as <-.
  - destruct (docx_rows (tl rows) acc) as [acc'|e] eqn:E; simpl; [|discriminate].
    apply IH. now apply (docx_rows_extracted (tl rows) acc).
Qed.

(** X9.  Whatever the document, [handle_docx] either fails with a 400 or
    returns at least one record, and every record it returns has exactly the
    entries [name], [email] and [age], the age an integer that is not
    negative. *)
Theorem handle_docx_outcome (doc : result (list (list (list string)))) :
  (exists detail, handle_docx doc = raise (HTTPException 400 detail))
  \/ (exists records,
         handle_docx doc = ret records
         /\ records <> [] /\ Forall extracted_record records).
Proof.
  unfold handle_docx. destruct doc as [tables|e]; simpl; [|eauto].
  destruct (docx_tables_loop tables []) as [out|e] eqn:E; simpl; [|eauto].
  destruct out as [|r out]; simpl; [eauto|]. right.
  exists (r :: out). split; [reflexivity|]. split; [discriminate|].
  apply (docx_tables_extracted tables [] _ (List.Forall_nil _) E).
Qed.

Lemma docx_rows_abort (rows : list (list string)) (row : list string)
  (acc : list pydict) :
  In row rows -> aborting_row row = true ->
  exists e, docx_rows rows acc = inr e.
Proof.
  revert acc. induction rows as [|r rows IH]; intros acc Hin Hbad;
    [destruct Hin|]. simpl.
  destruct (docx_row_cases r) as [[_ [e He]] | [Hr He]]; rewrite He; simpl;
    [eauto|].
  destruct Hin as [-> | Hin]; [congruence|].
  destruct (docx_row_record r); now apply IH.
Qed.

Lemma docx_tables_abort (tables : list (list (list string)))
  (table : list (list string)) (row : list string) (acc : list pydict) :
  In table tables -> In row (tl table) -> aborting_row row = true ->
  exists e, docx_tables_loop tables acc = inr e.
Proof.
  revert acc. induction tables as [|rows tables IH]; intros acc Hin Hrow Hbad;
    [destruct Hin|]. simpl.
  destruct Hin as [-> | Hin].
  - destruct (docx_rows_abort (tl table) row acc Hrow Hbad) as [e ->].
    simpl. eauto.
  - destruct (docx_rows (tl rows) acc) as [acc'|e]; simpl; [|eauto].
    now apply IH.
Qed.

(** X10.  One row is enough to lose a document: if, after its header, some
    table has a row with fewer than three cells, or a row whose age is made
    of digits that [int()] does not read (a superscript two, say), the
    extraction fails with a 400 and returns none of the records of the other
    rows.  (A row whose age is not made of digits is merely skipped.) *)
Theorem docx_row_aborts_the_document (tables : list (list (list string)))
  (table : list (list string)) (row : list string) :
  In table tables -> In row (tl table) -> aborting_row row = true ->
  exists detail,
    handle_docx (ret tables) = raise (HTTPException 400 detail).
Proof.
  intros Hin Hrow Hbad. unfold handle_docx. simpl.
  destruct (docx_tables_abort tables table row [] Hin Hrow Hbad) as [e ->].
  simpl. eauto.
Qed.

Lemma docx_row_aborts_the_document_witness :
  exists detail,
    handle_docx (ret [table_with_short_row])
    = raise (HTTPException 400 detail).
Proof.
  apply (docx_row_aborts_the_document [table_with_short_row]
           table_with_short_row ["Eve"; "eve@z.net"]).
  - simpl. tauto.
  - simpl. tauto.
  - reflexivity.
Defined.





End DocxSpec.

(** ** The upload pipeline, stage by stage *)

Module PipelineSpec.
Import Validation Upload Notions Samples ExtraNotions ValidationFacts
  UploadSpec.

Section WithLibraries.

Variable env : libs.

(** The handler as a chain of its four stages. *)
Lemma upload_file_stages (file : UploadFile) (w : world) :
  upload_file env file w
  = match save file w with
    | (inr e, w1) => failed e w1
    | (inl file_path, w1) =>
        match extract env file file_path w1 with
        | (inr e, w2) => failed e w2
        | (inl onboarding_data, w2) =>
            match validate_entries onboarding_data [] w2 with
            | (inr e, w3) => failed e w3
            | (inl validated_data, w3) =>
                match send_data_to_saas_api env validated_data w3 with
                | (inr e, w4) => failed e w4
                | (inl response, w4) => (ret (success response), w4)
                end
            end
        end
    end.
Proof.
  unfold upload_file, mtry, mbind, failed.
  destruct (save file w) as [[file_path|e] w1]; [|reflexivity].
  destruct (extract env file file_path w1) as [[ds|e] w2]; [|reflexivity].
  destruct (validate_entries ds [] w2) as [[vs|e] w3]; [|reflexivity].
  destruct (send_data_to_saas_api env vs w3) as [[response|e] w4];
    reflexivity.
Qed.

Lemma validate_entries_returns (ds acc out : list pydict) (w w' : world) :
  validate_entries ds acc w = (ret out, w') ->
  w' = w /\ exists vs, validates_to ds vs /\ out = (acc ++ vs)%list.
Proof.
  revert acc. induction ds as [|d ds IH]; intros acc; simpl.
  - intros H. injection H as <- <-. split; [reflexivity|].
    exists []. split; [constructor | now rewrite app_nil_r].
  - destruct (validate_onboarding_data d) as [v|e] eqn:E.
    + intros H. destruct (IH _ H) as (-> & vs & Hvs & ->).
      split; [reflexivity|]. exists (v :: vs).
      split; [now constructor | now rewrite <- app_assoc].
    + destruct e; try discriminate. destruct errors; discriminate.
Qed.

Lemma validate_entries_all_valid (ds vs acc : list pydict) (w : world) :
  validates_to ds vs ->
  validate_entries ds acc w = (ret (acc ++ vs)%list, w).
Proof.
  intros H. revert acc. induction H as [|d v ds vs Hd _ IH]; intros acc; simpl.
  - now rewrite app_nil_r.
  - unfold ret in Hd. rewrite Hd. cbv beta iota. rewrite IH.
    now rewrite <- app_assoc.
Qed.

Lemma send_state (data : list pydict) (w : world) :
  snd (send_data_to_saas_api env data w) = posted data w.
Proof. reflexivity. Qed.

Lemma send_returns (data : list pydict) (w : world) (response : string) :
  fst (send_data_to_saas_api env data w) = ret response
  <-> http_post env data = ret (200, response).
Proof.
  unfold send_data_to_saas_api, mbind, lift. simpl.
  destruct (http_post env data) as [[status_code json]|e]; simpl.
  - destruct (status_code =? 200) eqn:E; simpl.
    + apply Z.eqb_eq in E. subst. split; intros H; injection H as <-;
        reflexivity.
    + split; [discriminate|]. intros H. injection H as -> _.
      discriminate.
  - split; discriminate.
Qed.

(** X12.  The handler answers with success exactly when all four stages go
    through: the file is saved, the extraction returns records, every record
    validates, and the downstream API answers 200 to the one request that
    carries the validated records.  The state is then the one after the
    save, with this one request added. *)
Theorem upload_succeeds_exactly_when_all_stages_do
  (file : UploadFile) (w w' : world) (response : UploadResponse) :
  upload_file env file w = (ret response, w')
  <-> exists (file_path body : string) (w1 : world) (ds vs : list pydict),
        save file w = (ret file_path, w1)
        /\ extract env file file_path w1 = (ret ds, w1)
        /\ validates_to ds vs
        /\ http_post env vs = ret (200, body)
        /\ response = success body
        /\ w' = posted vs w1.
Proof.
  rewrite upload_file_stages. split.
  - destruct (save file w) as [[file_path|e] w1] eqn:Hs; [|discriminate].
    destruct (extract env file file_path w1) as [[ds|e] w2] eqn:He;
      [|discriminate].
    assert (Hw2 : w2 = w1).
    { rewrite <- (extract_keeps_world env file file_path w1). now rewrite He. }
    subst w2.
    destruct (validate_entries ds [] w1) as [[out|e] w3] eqn:Hv;
      [|discriminate].
    destruct (validate_entries_returns _ _ _ _ _ Hv) as (-> & vs & Hvs & Ho).
    simpl in Ho. subst out.
    destruct (send_data_to_saas_api env vs w1) as [[body|e] w4] eqn:Hp;
      [|discriminate].
    intros H. injection H as <- <-.
    exists file_path, body, w1, ds, vs. repeat split; try assumption.
    + apply (proj1 (send_returns vs w1 body)). now rewrite Hp.
    + rewrite <- send_state. now rewrite Hp.
  - intros (file_path & body & w1 & ds & vs & Hs & He & Hvs & Hp & -> & ->).
    pose proof (validate_entries_all_valid ds vs [] w1 Hvs) as Hv.
    unfold ret in Hs, He, Hv. simpl in Hv.
    rewrite Hs. cbv beta iota. rewrite He. cbv beta iota.
    rewrite Hv. cbv beta iota.
    apply (proj2 (send_returns vs w1 body)) in Hp.
    pose proof (send_state vs w1) as Hst.
    destruct (send_data_to_saas_api env vs w1) as [r w4].
    simpl in Hp, Hst. unfold ret in Hp. now subst.
Qed.

(** X13.  Nothing that has not been validated is forwarded, and nothing is
    forwarded twice: an upload leaves the posted payloads as they were, or
    adds one payload, every record of which is a record that validation
    returned. *)
Theorem upload_posts_only_validated_batches (file : UploadFile) (w : world) :
  w_posts (snd (upload_file env file w)) = w_posts w
  \/ exists vs : list pydict,
       w_posts (snd (upload_file env file w)) = (w_posts w ++ [vs])%list
       /\ Forall validated vs.
Proof.
  rewrite upload_file_stages.
  pose proof (save_keeps_posts file w) as Hs.
  destruct (save file w) as [[file_path|e] w1]; simpl in Hs; [|now left].
  pose proof (extract_keeps_world env file file_path w1) as He.
  destruct (extract env file file_path w1) as [[ds|e] w2]; simpl in He;
    subst w2; [|now left].
  destruct (validate_entries_keeps_posts ds [] w1) as [Hv _].
  destruct (validate_entries ds [] w1) as [[out|e] w3] eqn:E; simpl in Hv.
  - destruct (validate_entries_returns _ _ _ _ _ E) as (-> & vs & Hvs & Ho).
    simpl in Ho. subst out.
    right. exists vs. split.
    + pose proof (send_state vs w1) as Hst.
      destruct (send_data_to_saas_api env vs w1) as [[body|e] w4];
        simpl in Hst; subst w4; simpl; now rewrite Hs.
    + clear E Hv. induction Hvs as [|d v ds vs Hd _ IH];
        constructor; [now exists d | exact IH].
  - left. simpl. congruence.
Qed.

(** X14.  The handler does not clean up: the disk after an upload is the
    disk after its save, whatever the later stages did.  A file with an
    allowed suffix stays stored when its extraction, its validation or its
    forwarding fails; a file with another suffix leaves the disk
    untouched. *)
Theorem upload_leaves_the_saved_file (file : UploadFile) (w : world) :
  w_fs (snd (upload_file env file w))
  = match FileUtils.save_and_validate_file (w_fs w) (w_clock w) file with
    | inl (_, fs') => fs'
    | inr _ => w_fs w
    end.
Proof.
  rewrite upload_file_stages. unfold save.
  destruct (FileUtils.save_and_validate_file (w_fs w) (w_clock w) file)
    as [[file_path fs']|e]; [|reflexivity].
  match goal with
  | |- context [extract env file file_path ?w1] =>
      pose proof (extract_keeps_world env file file_path w1) as He;
      destruct (extract env file file_path w1) as [[ds|e] w2]
  end; simpl in He; subst w2; [|reflexivity].
  match goal with
  | |- context [validate_entries ds [] ?w1] =>
      destruct (validate_entries_keeps_posts ds [] w1) as [_ Hv];
      destruct (validate_entries ds [] w1) as [[out|e] w3]
  end; simpl in Hv; [|exact Hv].
  pose proof (send_state out w3) as Hst.
  destruct (send_data_to_saas_api env out w3) as [[body|e] w4];
    simpl in Hst; subst w4; exact Hv.
Qed.

(** X15.  No PDF upload gets through: when the declared content type is
    [application/pdf] the handler fails, whatever the file holds and whatever
    the libraries answer, and nothing is forwarded. *)
Theorem pdf_uploads_always_fail (file : UploadFile) (w : world) :
  content_type file = Some "application/pdf" ->
  (exists e, fst (upload_file env file w) = inr e /\ is_http 500 e)
  /\ w_posts (snd (upload_file env file w)) = w_posts w.
Proof.
  intros Hct. rewrite upload_file_stages.
  pose proof (save_keeps_posts file w) as Hs.
  destruct (save file w) as [[file_path|e] w1]; simpl in Hs.
  - assert (He : exists detail,
               extract env file file_path w1
               = (raise (HTTPException 400 detail), w1)).
    { unfold extract. rewrite Hct. simpl.
      destruct (PdfSpec.handle_pdf_never_returns
                  (bind (read_file w1 file_path) (pdfplumber_pages env)))
        as [detail ->]. eauto. }
    destruct He as [detail ->]. simpl. split; [|exact Hs].
    eexists. split; [reflexivity | eexists; reflexivity].
  - simpl. split; [|exact Hs].
    eexists. split; [reflexivity | eexists; reflexivity].
Qed.

End WithLibraries.

Lemma pdf_uploads_always_fail_witness :
  (exists e,
      fst (upload_file (csv_libs [jane]) (upload "scan.pdf" "application/pdf")
             start) = inr e
      /\ is_http 500 e)
  /\ w_posts (snd (upload_file (csv_libs [jane])
                     (upload "scan.pdf" "application/pdf") start))
     = w_posts start.
Proof.
  apply (pdf_uploads_always_fail (csv_libs [jane])
           (upload "scan.pdf" "application/pdf") start).
  reflexivity.
Defined.

Lemma upload_succeeds_exactly_when_all_stages_do_witness :
  upload_file (csv_libs [string_age_record]) (upload "data.csv" "text/csv")
    start
  = (ret (success "{}"),
     posted [jane] (snd (save (upload "data.csv" "text/csv") start))).
Proof.
  apply (proj2 (upload_succeeds_exactly_when_all_stages_do
                  (csv_libs [string_age_record])
                  (upload "data.csv" "text/csv") start _ _)).
  exists "uploads/data.csv", "{}",
    (snd (save (upload "data.csv" "text/csv") start)),
    [string_age_record], [jane].
  repeat split; try reflexivity.
  constructor; [vm_compute; reflexivity | constructor].
Defined.

End PipelineSpec.

(** ** Accounts, tokens and the protected route *)

Module ServiceSpec.
Import Auth Main Notions Samples ExtraNotions AuthSpec.

(** X16.  Signing up never touches an account that exists: a taken username
    is refused with the 400, and a signup that goes through adds the one new
    account, under a username that was free, with the hash of the password
    and not the password, and leaves every other account as it was.  The
    profile returned is the public part of the stored account. *)
Theorem signup_adds_one_account
  (get_password_hash : string -> string -> string)
  (db : gmap string UserInDB) (salt : string) (user : UserCreate) :
  (is_Some (db !! create_username user) ->
   signup get_password_hash db salt user
   = raise (HTTPException 400 "Username already registered"))
  /\ (forall (profile : User) (db' : gmap string UserInDB),
        signup get_password_hash db salt user = ret (profile, db') ->
        db !! create_username user = None
        /\ (forall k, k <> create_username user -> db' !! k = db !! k)
        /\ exists stored,
             db' !! create_username user = Some stored
             /\ username stored = create_username user
             /\ hashed_password stored
                = get_password_hash salt (create_password user)
             /\ profile = public stored).
Proof.
  unfold signup. split.
  - intros [u Hu]. now rewrite Hu.
  - intros profile db'. destruct (db !! create_username user) as [u|] eqn:E;
      [discriminate|].
    intros H. injection H as <- <-. split; [reflexivity|]. split.
    + intros k Hk. now rewrite lookup_insert_ne.
    + eexists. rewrite lookup_insert_eq. repeat split.
Qed.

Lemma signup_adds_one_account_witness :
  signup sample_hash {[ "testuser" := {| username := "testuser";
                                         email := "old@example.com";
                                         full_name := None;
                                         hashed_password := "s$old" |} ]}
    "salt" testuser
  = raise (HTTPException 400 "Username already registered").
Proof.
  apply (proj1 (signup_adds_one_account sample_hash _ "salt" testuser)).
  vm_compute. eauto.
Defined.

(** X17.  An account that has signed up can log in and use its token: if the
    password check accepts the password against its own hash, a login with
    the credentials of the signup returns a bearer token, and from the login
    until 30 minutes later the dependency of the protected route resolves
    this token to the username.  A login with a password the check refuses
    gets the 401. *)
Theorem signup_login_verify
  (key : string)
  (get_password_hash : string -> string -> string)
  (verify_password : string -> string -> bool)
  (db db' : gmap string UserInDB) (salt : string) (user : UserCreate)
  (profile : User) (issued utcnow : Z) :
  verify_password (create_password user)
    (get_password_hash salt (create_password user)) = true ->
  signup get_password_hash db salt user = ret (profile, db') ->
  issued <= utcnow <= issued + minutes ACCESS_TOKEN_EXPIRE_MINUTES ->
  (exists tok,
      login key verify_password db' (credentials user) issued = ret tok
      /\ token_type tok = "bearer"
      /\ get_current_user key (access_token tok) utcnow
         = ret (JStr (create_username user)))
  /\ (forall wrong : string,
        verify_password wrong
          (get_password_hash salt (create_password user)) = false ->
        login key verify_password db'
          {| login_username := create_username user;
             login_password := wrong |} issued
        = raise (UNAUTHORIZED "Incorrect username or password")).
Proof.
  intros Hcheck Hsignup [H1 H2]. unfold signup in Hsignup.
  destruct (db !! create_username user); [discriminate|].
  injection Hsignup as _ <-. split.
  - eexists. unfold login, authenticate_user, credentials. simpl.
    rewrite lookup_insert_eq. simpl. rewrite Hcheck. simpl.
    split; [reflexivity|]. split; [reflexivity|].
    unfold get_current_user, create_access_token.
    change (minutes ACCESS_TOKEN_EXPIRE_MINUTES =? 0) with false.
    cbv beta iota.
    change (jwt_encode key
              (<["exp" := JInt (timegm
                                  (issued + minutes ACCESS_TOKEN_EXPIRE_MINUTES))]>
                 {["sub" := JStr (create_username user)]}))
      with (Signed ALGORITHM key
              (Claims (plain_claims (Some (create_username user))
                         (Some (timegm
                                  (issued
                                   + minutes ACCESS_TOKEN_EXPIRE_MINUTES)))))).
    cbn [access_token]. rewrite verify_plain, !String.eqb_refl. simpl.
    apply timegm_mono in H2.
    destruct (timegm (issued + minutes ACCESS_TOKEN_EXPIRE_MINUTES)
              <? timegm utcnow) eqn:E;
      [apply Z.ltb_lt in E; lia | reflexivity].
  - intros wrong Hwrong. unfold login, authenticate_user. simpl.
    rewrite lookup_insert_eq. simpl. now rewrite Hwrong.
Qed.

Lemma signup_login_verify_witness :
  (exists tok,
      login SECRET sample_verify
        {[ "testuser" := {| username := "testuser";
                            email := "testuser@example.com";
                            full_name := Some "Test User";
                            hashed_password := "salt$testpassword" |} ]}
        (credentials testuser) 1700000000123456 = ret tok
      /\ token_type tok = "bearer"
      /\ get_current_user SECRET (access_token tok) 1700000600000000
         = ret (JStr "testuser"))
  /\ (forall wrong : string,
        sample_verify wrong (sample_hash "salt" "testpassword") = false ->
        login SECRET sample_verify
          {[ "testuser" := {| username := "testuser";
                              email := "testuser@example.com";
                              full_name := Some "Test User";
                              hashed_password := "salt$testpassword" |} ]}
          {| login_username := "testuser"; login_password := wrong |}
          1700000000123456
        = raise (UNAUTHORIZED "Incorrect username or password")).
Proof.
  apply (signup_login_verify SECRET sample_hash sample_verify ∅ _ "salt"
           testuser (public {| username := "testuser";
                               email := "testuser@example.com";
                               full_name := Some "Test User";
                               hashed_password := "salt$testpassword" |})
           1700000000123456 1700000600000000).
  - reflexivity.
  - reflexivity.
  - vm_compute. split; discriminate.
Defined.

(** X18.  How long an issued token lives.  A token issued for a subject is
    resolved to that subject at every time up to the second of its expiry,
    and is rejected with the 401 at every later time; the expiry is the time
    of issuance plus the expiry given, or plus 15 minutes when none, or a
    zero one, is given. *)
Theorem issued_token_lifetime
  (key subject : string) (expires_delta : option Z) (issued utcnow : Z) :
  verify_token key
    (create_access_token key {[ "sub" := JStr subject ]} expires_delta issued)
    utcnow
  = if timegm utcnow <=? timegm (issued + effective_ttl expires_delta)
    then ret (JStr subject)
    else raise (UNAUTHORIZED "Invalid authentication credentials").
Proof.
  assert (E : create_access_token key {[ "sub" := JStr subject ]}
                expires_delta issued
              = Signed ALGORITHM key
                  (Claims (plain_claims (Some subject)
                             (Some (timegm
                                      (issued + effective_ttl expires_delta)))))).
  { unfold create_access_token, effective_ttl.
    destruct expires_delta as [d|]; [destruct (d =? 0)|]; reflexivity. }
  rewrite E, verify_plain, !String.eqb_refl. simpl.
  rewrite Z.leb_antisym. now destruct (_ <? _).
Qed.

Lemma token_expiry_example :
  verify_token SECRET
    (create_access_token SECRET {[ "sub" := JStr "alice" ]} (Some 0) 0)
    (minutes 15)
  = ret (JStr "alice")
  /\ verify_token SECRET
       (create_access_token SECRET {[ "sub" := JStr "alice" ]} (Some 0) 0)
       (minutes 15 + 1000000)
     = raise (UNAUTHORIZED "Invalid authentication credentials").
Proof. split; reflexivity. Qed.

(** X19.  A token is only ever resolved for the holder of the key: when
    [verify_token] returns, the token was signed with the key of the service
    and names the algorithm of the service, the value returned is the
    subject of its payload and is a string, and an integer expiry in the
    payload is not past. *)
Theorem accepted_token_is_signed_for_its_subject
  (key : string) (t : token) (utcnow : Z) (v : jval) :
  verify_token key t utcnow = ret v ->
  exists (c : claims) (subject : string),
    t = Signed ALGORITHM key (Claims c)
    /\ c !! "sub" = Some (JStr subject)
    /\ v = JStr subject
    /\ forall exp, c !! "exp" = Some (JInt exp) -> timegm utcnow <= exp.
Proof.
  unfold verify_token, jwt_decode.
  destruct t as [|alg k p]; [discriminate|].
  destruct (String.eqb alg ALGORITHM) eqn:Ea; simpl; [|discriminate].
  destruct (String.eqb k key) eqn:Ek; simpl; [|discriminate].
  apply String.eqb_eq in Ea, Ek. subst alg k.
  destruct p as [| |c]; try discriminate.
  destruct (validate_claims c (timegm utcnow)) as [[]|e] eqn:Hv; simpl.
  - destruct (c !! "sub") as [x|] eqn:Hsub; [|discriminate].
    intros H. injection H as <-.
    pose proof Hv as Hchecks. unfold validate_claims in Hchecks.
    apply bind_ret_inv in Hchecks as (u1 & _ & Hchecks).
    apply bind_ret_inv in Hchecks as (u2 & _ & Hchecks).
    apply bind_ret_inv in Hchecks as (u3 & _ & Hchecks).
    apply bind_ret_inv in Hchecks as (u4 & _ & Hchecks).
    apply bind_ret_inv in Hchecks as (u5 & Hstr & _).
    unfold string_claim in Hstr. rewrite Hsub in Hstr.
    destruct x as [b|z|subject]; try discriminate.
    exists c, subject.
    split; [reflexivity|]. split; [exact Hsub|]. split; [reflexivity|].
    intros exp Hexp.
    pose proof (validate_claims_not_expired c _ (JInt exp) exp Hv Hexp eq_refl)
      as Hn.
    apply Z.ltb_ge in Hn. exact Hn.
  - destruct (jwt_only_validate_claims c (timegm utcnow) e Hv) as [msg ->].
    discriminate.
Qed.

Lemma accepted_token_is_signed_for_its_subject_witness :
  exists (c : claims) (subject : string),
    Signed ALGORITHM SECRET (Claims (plain_claims (Some "alice") (Some 3000)))
    = Signed ALGORITHM SECRET (Claims c)
    /\ c !! "sub" = Some (JStr subject)
    /\ JStr "alice" = JStr subject
    /\ forall exp, c !! "exp" = Some (JInt exp) -> timegm 2500000000 <= exp.
Proof.
  apply (accepted_token_is_signed_for_its_subject SECRET
           (Signed ALGORITHM SECRET
              (Claims (plain_claims (Some "alice") (Some 3000))))
           2500000000 (JStr "alice")).
  reflexivity.
Defined.

(** X20.  The pipeline is behind the token.  A request to the upload route
    whose header is missing, or whose token [verify_token] does not accept,
    is answered with a 401 and changes nothing: no file is saved, nothing is
    logged, nothing is forwarded.  With an accepted token the route does
    what the handler does. *)
Theorem upload_route_is_guarded
  (key : string) (env : libs) (authorization : option token)
  (file : UploadFile) (w : world) :
  ((forall t v, authorization = Some t ->
                verify_token key t (w_clock w) <> ret v) ->
   exists detail,
     upload_route key env authorization file w
     = (raise (HTTPException 401 detail), w))
  /\ (forall t v, authorization = Some t ->
                  verify_token key t (w_clock w) = ret v ->
                  upload_route key env authorization file w
                  = Upload.upload_file env file w).
Proof.
  unfold upload_route, oauth2_scheme, get_current_user. split.
  - intros Hno. destruct authorization as [t|]; simpl; [|eauto].
    destruct (verify_token_cases key t (w_clock w)) as [[v Hv] | Hr].
    + exfalso. exact (Hno t v eq_refl Hv).
    + rewrite Hr. eauto.
  - intros t v -> Hv. simpl. now rewrite Hv.
Qed.

Lemma upload_route_is_guarded_witness :
  exists detail,
    upload_route SECRET (csv_libs [jane]) (Some early_token)
      (upload "data.csv" "text/csv")
      {| w_fs := ∅; w_clock := 1000000000; w_log := []; w_posts := [] |}
    = (raise (HTTPException 401 detail),
       {| w_fs := ∅; w_clock := 1000000000; w_log := []; w_posts := [] |}).
Proof.
  apply (proj1 (upload_route_is_guarded SECRET (csv_libs [jane])
                  (Some early_token) (upload "data.csv" "text/csv")
                  {| w_fs := ∅; w_clock := 1000000000; w_log := [];
                     w_posts := [] |})).
  intros t v Ht Hv. injection Ht as <-. vm_compute in Hv. discriminate.
Defined.

End ServiceSpec.

(** ** From the signup to the downstream API *)

Module JourneySpec.
Import Validation Upload Auth Main Notions Samples ExtraNotions
  FileUtilsFacts PipelineSpec AuthSpec.






End JourneySpec.

(** ** The forwarder and the mock of the downstream API *)

Module MockSpec.
Import Validation Upload Notions Samples ExtraNotions SchemaSpec MockSaas.

(** A record that validation returned is read by the mock as the customer it
    stands for. *)
Lemma validated_parses (v : pydict) :
  validated v -> exists c, parse_customer v = Some c /\ v = as_record c.
Proof.
  intros [d H].
  destruct (validated_shape d v H) as (n & e & a & -> & _).
  exists {| name := n; email := e; age := a |}. split; reflexivity.
Qed.

Lemma validated_batch_parses (vs : list pydict) :
  Forall validated vs ->
  exists cs, parse_customers vs = Some cs /\ vs = map as_record cs.
Proof.
  induction 1 as [|v vs Hv _ (cs & Hcs & ->)].
  - exists []. split; reflexivity.
  - destruct (validated_parses v Hv) as (c & Hc & ->).
    exists (c :: cs). simpl. rewrite Hc, Hcs. split; reflexivity.
Qed.

(** X22.  The forwarder against the mock of the repository.  Records that
    validation returned always fit the schema of the mock, each read as the
    customer with its name, its email and its age; so a forwarded batch is
    never refused for its shape.  It is answered with the receipt of these
    customers when the key of the client is the key of the mock, and
    otherwise the 401 of the mock reaches the caller as a 500. *)
Theorem mock_receives_validated_batches
  (json_of_receipt : Receipt -> string) (json_of_detail : string -> string)
  (SaaS_API_KEY : string) (parsers : libs) (vs : list pydict) (w : world) :
  Forall validated vs ->
  exists cs : list CustomerData,
    vs = map as_record cs
    /\ fst (send_data_to_saas_api
              (with_mock json_of_receipt json_of_detail SaaS_API_KEY parsers)
              vs w)
       = if String.eqb SaaS_API_KEY MOCK_API_KEY
         then ret (json_of_receipt (received cs))
         else raise (HTTPException 500
                       "Failed to connect to SaaS API: 401: Error communicating with SaaS API").
Proof.
  intros H. destruct (validated_batch_parses vs H) as (cs & Hcs & E).
  exists cs. split; [exact E|].
  unfold send_data_to_saas_api, mbind, lift, with_mock, endpoint, submit_data.
  simpl. rewrite Hcs.
  destruct (String.eqb SaaS_API_KEY MOCK_API_KEY); reflexivity.
Qed.

Lemma mock_receives_validated_batches_witness :
  exists cs : list CustomerData,
    [jane] = map as_record cs
    /\ fst (send_data_to_saas_api
              (with_mock sample_json_of_receipt sample_json_of_detail
                 "wrong-key" (csv_libs []))
              [jane] start)
       = if String.eqb "wrong-key" MOCK_API_KEY
         then ret (sample_json_of_receipt (received cs))
         else raise (HTTPException 500
                       "Failed to connect to SaaS API: 401: Error communicating with SaaS API").
Proof.
  apply (mock_receives_validated_batches sample_json_of_receipt
           sample_json_of_detail "wrong-key" (csv_libs []) [jane] start).
  constructor; [|constructor]. exists string_age_record. reflexivity.
Defined.

End MockSpec.
